(** * fetch_news.py: the daily news script, embedded and verified

    The script has two functions: [fetch_bbc_news], which downloads an RSS
    feed, parses it and renders the first items as HTML list entries, and
    [update_index_html], which substitutes two literal markers of
    [index.html].  Both are embedded below as executable definitions; the
    network, the XML parser, the clock and the file system are explicit
    inputs. *)

From Stdlib Require Import ZArith NArith Lia Bool Ascii String.
From stdpp Require Import base list gmap strings.

Local Open Scope N_scope.
Local Open Scope list_scope.

(** ** Python strings *)

(** A Python [str] is a sequence of Unicode code points; slicing and
    [len] count code points, so a character is its code point. *)
Abbreviation char := N (only parsing).
Abbreviation str := (list N) (only parsing).

Module PyStr.

(** An ASCII literal as a [str]. *)
Definition lit (s : string) : str :=
  map N_of_ascii (list_ascii_of_string s).

Definition QUOTE : char := 34.   (* the double quote *)
Definition LT : char := 60.      (* < *)
Definition GT : char := 62.      (* > *)

(** [s.startswith(p)] *)
Fixpoint starts_with (p s : str) : bool :=
  match p, s with
  | [], _ => true
  | _ :: _, [] => false
  | a :: p', b :: s' => (a =? b) && starts_with p' s'
  end.

(** [p in s] *)
Fixpoint contains (p s : str) : bool :=
  starts_with p s ||
  match s with
  | [] => false
  | _ :: s' => contains p s'
  end.

(** [''.join(parts)] *)
Definition join (parts : list str) : str := concat parts.

(** [sep.join(parts)] *)
Fixpoint join_with (sep : str) (parts : list str) : str :=
  match parts with
  | [] => []
  | [u] => u
  | u :: rest => u ++ sep ++ join_with sep rest
  end.

(** [l[:n]] for a Python integer [n]: a negative [n] counts from the end. *)
Definition slice_to {A} (n : Z) (l : list A) : list A :=
  if (0 <=? n)%Z then take (Z.to_nat n) l
  else take (length l - Z.to_nat (- n))%nat l.

(** Left-to-right replacement of non-overlapping matches, the scan shared by
    [str.replace] and [re.sub]: [match_at s] is the length of the match that
    starts at the head of [s], if there is one; [skip] counts the characters
    of the current match still to be passed over. *)
Section Scan.
Variable match_at : str → option nat.
Variable repl : str.

Fixpoint scan_from (skip : nat) (s : str) : str :=
  match s with
  | [] => []
  | c :: s' =>
    match skip with
    | S k => scan_from k s'
    | O =>
      match match_at s with
      | Some (S n) => repl ++ scan_from n s'
      | _ => c :: scan_from 0 s'
      end
    end
  end.
End Scan.

(** [s.replace(old, new)].  With an empty [old] Python inserts [new] before
    every character and at the end. *)
Definition literal_at (old s : str) : option nat :=
  if starts_with old s then Some (length old) else None.

Definition str_replace (old new s : str) : str :=
  match old with
  | [] => new ++ flat_map (λ c, c :: new) s
  | _ :: _ => scan_from (literal_at old) new 0 s
  end.

(** The regular expression [<[^>]+>]: a [<], then one or more characters
    other than [>], then a [>].  [until_gt s] is the number of characters
    before the first [>] of [s]. *)
Fixpoint until_gt (s : str) : option nat :=
  match s with
  | [] => None
  | c :: s' => if c =? GT then Some 0%nat else S <$> until_gt s'
  end.

Definition tag_at (s : str) : option nat :=
  match s with
  | c0 :: c1 :: s' =>
    if (c0 =? LT) && negb (c1 =? GT)
    then (λ n, n + 3)%nat <$> until_gt s'
    else None
  | _ => None
  end.

(** [re.sub(r'<[^>]+>', '', s)] *)
Definition strip_tags (s : str) : str := scan_from tag_at [] 0 s.

End PyStr.
Import PyStr.

(** ** The parsed feed *)

(** An [xml.etree.ElementTree.Element], with the fields the script reads. *)
#[warnings="-register-all"] Inductive Element : Type :=
  mkElement { tag : str; text : option str; children : list Element }.

Definition str_eqb (a b : str) : bool := bool_decide (a = b).

(** [elem.find(name)]: the first direct child with that tag. *)
Definition find (name : str) (e : Element) : option Element :=
  List.find (λ c, str_eqb (tag c) name) (children e).

(** The descendants of an element in document order. *)
Fixpoint descendants (e : Element) : list Element :=
  flat_map (λ c, c :: descendants c) (children e).

(** [root.findall('.//' + name)] *)
Definition findall_descendants (name : str) (root : Element) : list Element :=
  List.filter (λ c, str_eqb (tag c) name) (descendants root).

(** ** Rendering of the items *)

Definition NO_TITLE : str := [28961; 27161; 38988].   (* 無標題 *)
Definition NO_LINK : str := Eval cbv in lit "#".
Definition NO_DESC : str := [28961; 25551; 36848].    (* 無描述 *)
Definition ELLIPSIS : str := Eval cbv in lit "...".

(** [x or default] for an element's text: [None] and [''] are falsy. *)
Definition text_or (t : option str) (default : str) : str :=
  match t with
  | Some (c :: s) => c :: s
  | _ => default
  end.

Definition TITLE : str := Eval cbv in lit "title".
Definition LINK : str := Eval cbv in lit "link".
Definition DESCRIPTION : str := Eval cbv in lit "description".

(** Line 44: the description before tag stripping. *)
Definition raw_desc (desc_elem : option Element) : str :=
  match desc_elem with
  | Some e =>
    match text e with
    | Some (c :: s) => take 100 (c :: s) ++ ELLIPSIS
    | _ => NO_DESC
    end
  | None => NO_DESC
  end.

(** Line 50: the f-string and its literal pieces. *)
Definition LI_OPEN : str := Eval cbv in lit "<li><a href=" ++ [QUOTE].
Definition HREF_CLOSE : str :=
  Eval cbv in [QUOTE] ++ lit " target=" ++ [QUOTE] ++ lit "_blank" ++ [QUOTE] ++ lit ">".
Definition ANCHOR_CLOSE : str := Eval cbv in lit "</a>: ".
Definition LI_CLOSE : str := Eval cbv in lit "</li>".

Definition html_item (link title desc : str) : str :=
  LI_OPEN ++ link ++ HREF_CLOSE ++ title ++ ANCHOR_CLOSE ++ desc ++ LI_CLOSE.

(** The body of the loop for one item: [None] when nothing is appended. *)
Definition render_item (item : Element) : option str :=
  let title_elem := find TITLE item in
  let link_elem := find LINK item in
  let desc_elem := find DESCRIPTION item in
  match title_elem, link_elem with
  | Some t, Some l =>
    let title := text_or (text t) NO_TITLE in
    let link := text_or (text l) NO_LINK in
    let desc := strip_tags (raw_desc desc_elem) in
    Some (html_item link title desc)
  | _, _ => None
  end.

(** Lines 35-51: the loop. *)
Fixpoint render_items (selected : list Element) : list str :=
  match selected with
  | [] => []
  | item :: rest =>
    match render_item item with
    | Some html => html :: render_items rest
    | None => render_items rest
    end
  end.

(** ** Exceptions, the console and the file system *)

(** The exceptions the script can meet, all subclasses of [Exception]:
    those of [requests] (its [RequestException] and subclasses), the XML
    parser's [ParseError], [FileNotFoundError], and any other one. *)
Inductive exn : Type :=
  | Timeout
  | ConnectionError
  | HTTPError (status : Z)
  | RequestException
  | ParseError
  | FileNotFoundError
  | OtherException.

Definition is_RequestException (e : exn) : bool :=
  match e with
  | Timeout | ConnectionError | HTTPError _ | RequestException => true
  | _ => false
  end.

Definition is_ParseError (e : exn) : bool :=
  match e with ParseError => true | _ => false end.

Definition is_FileNotFoundError (e : exn) : bool :=
  match e with FileNotFoundError => true | _ => false end.

Definition is_Exception (e : exn) : bool := true.

(** A calendar time, as [datetime.now()] returns it. *)
Record datetime : Type :=
  mkDatetime { year : N; month : N; day : N; hour : N; minute : N; second : N }.

(** The lines the script prints. *)
Inductive line : Type :=
  | MsgStart
  | MsgRequestError (e : exn)
  | MsgParseError (e : exn)
  | MsgUnknownError (e : exn)
  | MsgUpdated (count : nat) (update_time : str)
  | MsgNotFound
  | MsgUpdateError (e : exn)
  | MsgEnd.

Definition CR : char := 13.
Definition LF : char := 10.

(** Reading in text mode with universal newlines: a carriage return and
    line feed, then a lone carriage return, are read as a line feed. *)
Definition universal_newlines (s : str) : str :=
  str_replace [CR] [LF] (str_replace [CR; LF] [LF] s).

(** Writing in text mode: a line feed is written as [os.linesep], which is
    a line feed on the POSIX systems the script is run on. *)
Definition LINESEP : str := [LF].
Definition newlines_out (s : str) : str := str_replace [LF] LINESEP s.

(** The characters UTF-8 can encode: the code points up to 10FFFF that are
    not surrogates. *)
Definition scalar (c : char) : bool :=
  (c <? 55296) || ((57343 <? c) && (c <=? 1114111)).
Definition encodable (s : str) : bool := forallb scalar s.

(** A regular file: the characters its bytes decode to as UTF-8, if they
    do, and whether it may be opened for reading and for writing. *)
Record regular : Type :=
  mkRegular { decoded : option str; may_read : bool; may_write : bool }.

(** A path names a regular file or a directory, or nothing. *)
Inductive entry : Type :=
  | Regular (f : regular)
  | Directory.

(** A readable and writable text file that holds [content]. *)
Definition File (content : str) : entry :=
  Regular (mkRegular (Some content) true true).

Record State : Type :=
  mkState { files : gmap string entry; console : list line }.

(** The outcome of a statement: it completes with a value or raises. *)
Inductive outcome (A : Type) : Type :=
  | Returns (a : A)
  | Raises (e : exn).
Arguments Returns {A} a.
Arguments Raises {A} e.

Definition py (A : Type) : Type := State → outcome A * State.

#[export] Instance py_ret : MRet py := λ A a st, (Returns a, st).
#[export] Instance py_bind : MBind py := λ A B f m st,
  match m st with
  | (Returns a, st') => f a st'
  | (Raises e, st') => (Raises e, st')
  end.

Definition raise {A} (e : exn) : py A := λ st, (Raises e, st).

Definition lift {A} (r : exn + A) : py A :=
  match r with
  | inl e => raise e
  | inr a => mret a
  end.

Definition print (l : line) : py unit :=
  λ st, (Returns (), mkState (files st) (console st ++ [l])).

(** [try: body except C1: h1 except C2: h2 ...]: the first clause whose
    class the exception belongs to handles it; with none, it propagates. *)
Fixpoint dispatch {A} (clauses : list ((exn → bool) * (exn → py A)))
    (e : exn) : py A :=
  match clauses with
  | [] => raise e
  | (cls, handler) :: clauses' =>
    if cls e then handler e else dispatch clauses' e
  end.

Definition try_except {A} (body : py A)
    (clauses : list ((exn → bool) * (exn → py A))) : py A :=
  λ st,
    match body st with
    | (Returns a, st') => (Returns a, st')
    | (Raises e, st') => dispatch clauses e st'
    end.

(** [open(path, 'r').read()] *)
Definition read_text (path : string) : py str :=
  λ st,
    match files st !! path with
    | None => (Raises FileNotFoundError, st)
    | Some Directory => (Raises OtherException, st)           (* IsADirectoryError *)
    | Some (Regular f) =>
      if may_read f then
        match decoded f with
        | Some content => (Returns (universal_newlines content), st)
        | None => (Raises OtherException, st)                 (* UnicodeDecodeError *)
        end
      else (Raises OtherException, st)                        (* PermissionError *)
    end.

(** [open(path, 'w').write(content)]: opening truncates the file, or
    creates it; the text is encoded as it is written, so that text that
    cannot be encoded leaves the file empty. *)
Definition write_text (path : string) (content : str) : py unit :=
  λ st,
    let store (readable : bool) (data : str) :=
      mkState (<[path := Regular (mkRegular (Some data) readable true)]> (files st))
              (console st) in
    let write (readable : bool) :=
      if encodable content
      then (Returns (), store readable (newlines_out content))
      else (Raises OtherException, store readable []) in     (* UnicodeEncodeError *)
    match files st !! path with
    | Some Directory => (Raises OtherException, st)           (* IsADirectoryError *)
    | Some (Regular f) =>
      if may_write f then write (may_read f)
      else (Raises OtherException, st)                        (* PermissionError *)
    | None => write true
    end.

(** ** The fetcher *)

Record Response : Type :=
  mkResponse { status_code : Z; content : list Byte.byte }.

(** What the script calls and does not define: [requests.get], the
    response's [raise_for_status], [ET.fromstring] and the clock.  Each call
    returns or raises. *)
Record World : Type :=
  mkWorld {
    requests_get : str → Z → exn + Response;
    raise_for_status : Response → exn + unit;
    fromstring : list Byte.byte → exn + Element;
    clock : datetime
  }.

Definition RSS_URL : str := Eval cbv in lit "http://feeds.bbci.co.uk/news/rss.xml".
Definition ITEM : str := Eval cbv in lit "item".

(** Lines 27-53: the body of the [try]. *)
Definition fetch_body (w : World) (num_items : Z) : py (list str) :=
  response ← lift (requests_get w RSS_URL 10);
  _ ← lift (raise_for_status w response);
  root ← lift (fromstring w (content response));
  mret (render_items (slice_to num_items (findall_descendants ITEM root))).

Definition fetch_bbc_news (w : World) (num_items : Z) : py (list str) :=
  try_except (fetch_body w num_items)
    [ (is_RequestException, λ e, _ ← print (MsgRequestError e); mret []);
      (is_ParseError, λ e, _ ← print (MsgParseError e); mret []);
      (is_Exception, λ e, _ ← print (MsgUnknownError e); mret []) ].

(** ** The page updater *)

Definition INDEX_HTML : string := "index.html".

Definition NEWS_OPEN : str := Eval cbv in lit "<div id=" ++ [QUOTE] ++ lit "news" ++ [QUOTE] ++ lit ">".
Definition DIV_CLOSE : str := Eval cbv in lit "</div>".
(** <div id="news"></div> *)
Definition NEWS_MARKER : str := Eval cbv in NEWS_OPEN ++ DIV_CLOSE.
(** The comment the time replaces: <!-- 腳本會插入時間 --> *)
Definition TIME_MARKER : str :=
  Eval cbv in lit "<!-- " ++ [33139; 26412; 26371; 25554; 20837; 26178; 38291] ++ lit " -->".
Definition UL_OPEN : str := Eval cbv in lit "<ul>".
Definition UL_CLOSE : str := Eval cbv in lit "</ul>".
(** <p>無法載入新聞，請稍後再試。</p> *)
Definition UNAVAILABLE : str :=
  Eval cbv in lit "<p>" ++ [28961; 27861; 36617; 20837; 26032; 32862; 65292; 35531;
                           31245; 24460; 20877; 35430; 12290] ++ lit "</p>".
(** The suffix of the time format:  (台灣時間) *)
Definition TAIWAN_TIME : str :=
  Eval cbv in lit " (" ++ [21488; 28771; 26178; 38291] ++ lit ")".

Definition digit (n : N) : char := 48 + n mod 10.
Definition two_digits (n : N) : str := [digit (n / 10); digit n].
Definition four_digits (n : N) : str :=
  [digit (n / 1000); digit (n / 100); digit (n / 10); digit n].

(** [now.strftime('%Y-%m-%d %H:%M:%S (台灣時間)')], for a four-digit year. *)
Definition strftime (now : datetime) : str :=
  four_digits (year now) ++ [45] ++ two_digits (month now) ++ [45] ++
  two_digits (day now) ++ [32] ++ two_digits (hour now) ++ [58] ++
  two_digits (minute now) ++ [58] ++ two_digits (second now) ++ TAIWAN_TIME.

(** Lines 79-84: the news fragment and the time, chosen by the truth value
    of the list. *)
Definition prepare (now : datetime) (news_items : list str) : str * str :=
  match news_items with
  | _ :: _ => (UL_OPEN ++ join news_items ++ UL_CLOSE, strftime now)
  | [] => (UNAVAILABLE, strftime now)
  end.

Definition news_html (now : datetime) (news_items : list str) : str :=
  (prepare now news_items).1.
Definition update_time (now : datetime) (news_items : list str) : str :=
  (prepare now news_items).2.

(** Lines 88-90: the two replacements, on the text of the file. *)
Definition substitute (now : datetime) (news_items : list str)
    (html_content : str) : str :=
  let html_content :=
    str_replace NEWS_MARKER
      (NEWS_OPEN ++ news_html now news_items ++ DIV_CLOSE) html_content in
  str_replace TIME_MARKER (update_time now news_items) html_content.

Definition update_index_html (now : datetime) (news_items : list str) : py unit :=
  try_except
    (html_content ← read_text INDEX_HTML;
     _ ← write_text INDEX_HTML (substitute now news_items html_content);
     print (MsgUpdated (length news_items) (update_time now news_items)))
    [ (is_FileNotFoundError, λ _, print MsgNotFound);
      (is_Exception, λ e, print (MsgUpdateError e)) ].

(** Lines 103-108: the script run as a program. *)
Definition main (w : World) : py unit :=
  _ ← print MsgStart;
  news ← fetch_bbc_news w 5;
  _ ← update_index_html (clock w) news;
  print MsgEnd.

(** ** Notions used to state the properties *)

(** An item the loop renders: it has a [title] and a [link] child. *)
Definition valid (item : Element) : bool :=
  match find TITLE item, find LINK item with
  | Some _, Some _ => true
  | _, _ => false
  end.

(** The ways the body of the [try] of [fetch_bbc_news] fails: the request
    raises, the status check raises, or the parser raises. *)
Inductive fetch_failure (w : World) : exn → Prop :=
  | request_raises e :
      requests_get w RSS_URL 10%Z = inl e → fetch_failure w e
  | status_raises r e :
      requests_get w RSS_URL 10%Z = inr r → raise_for_status w r = inl e →
      fetch_failure w e
  | parser_raises r e :
      requests_get w RSS_URL 10%Z = inr r → raise_for_status w r = inr () →
      fromstring w (content r) = inl e → fetch_failure w e.

(** Two strings agree when one is a prefix of the other. *)
Fixpoint agree (p s : list N) : bool :=
  match p, s with
  | a :: p', b :: s' => (a =? b) && agree p' s'
  | _, _ => true
  end.

(** No proper suffix of [old] of length at least one agrees with [x]: a match
    of [old] that starts before [x] cannot run into it. *)
Definition guards (old x : list N) : bool :=
  forallb (λ k, negb (agree (drop k old) x)) (seq 1 (length old - 1)).

(** A string none of whose proper suffixes is a prefix of it: its
    occurrences cannot overlap. *)
Definition unbordered (old : list N) : bool := guards old old.

(** No occurrence of [m] starts inside [x], whatever follows [x]. *)
Definition inert (m x : list N) : bool :=
  forallb (λ i, negb (agree m (drop i x))) (seq 0 (length x)).

(** No decimal digit occurs in [m]. *)
Definition no_digit (m : list N) : bool :=
  forallb (λ c, negb ((48 <=? c) && (c <=? 57))) m.


(** Lines 44-47: the description of an item as it is rendered. *)
Definition rendered_desc (item : Element) : str :=
  strip_tags (raw_desc (find DESCRIPTION item)).

(** The title and the link as they are rendered (lines 42-43). *)
Definition rendered_title (item : Element) : str :=
  match find TITLE item with
  | Some t => text_or (text t) NO_TITLE
  | None => NO_TITLE
  end.

Definition rendered_link (item : Element) : str :=
  match find LINK item with
  | Some l => text_or (text l) NO_LINK
  | None => NO_LINK
  end.

(** An item whose title and link hold no [<]. *)
Definition plain (item : Element) : Prop :=
  (LT ∉ rendered_title item) ∧ (LT ∉ rendered_link item).

(** ** Sample inputs *)

Module Samples.
Definition elem (name : str) (t : option str) : Element := mkElement name t [].

Definition now0 : datetime := mkDatetime 2024 1 2 3 4 5.
Definition now1 : datetime := mkDatetime 2024 1 3 3 4 5.
Definition st0 : State := mkState ∅ [].

(** The status check of [requests]: client and server error statuses
    raise [HTTPError]. *)
Definition check_status (r : Response) : exn + unit :=
  if ((400 <=? status_code r) && (status_code r <? 600))%Z
  then inl (HTTPError (status_code r)) else inr ().

(** A world whose request succeeds and whose parser returns [root]. *)
Definition feed_world (root : Element) : World :=
  mkWorld (λ _ _, inr (mkResponse 200 [])) check_status (λ _, inr root) now0.
Definition timeout_world : World :=
  mkWorld (λ _ _, inl Timeout) check_status (λ _, inl ParseError) now0.
Definition server_error_world : World :=
  mkWorld (λ _ _, inr (mkResponse 500 [])) check_status (λ _, inr (mkElement [] None []))
    now0.
Definition malformed_world : World :=
  mkWorld (λ _ _, inr (mkResponse 200 [])) check_status (λ _, inl ParseError) now0.

Definition short_item : Element :=
  mkElement ITEM None
    [elem TITLE (Some (lit "T")); elem LINK (Some (lit "L"));
     elem DESCRIPTION (Some (lit "abc"))].
(** A description of 103 characters that starts with a tag. *)
Definition tagged_text : str := lit "<b>" ++ replicate 100 97.
Definition tagged_item : Element :=
  mkElement ITEM None
    [elem TITLE (Some (lit "T")); elem LINK (Some (lit "L"));
     elem DESCRIPTION (Some tagged_text)].
Definition no_title_item : Element :=
  mkElement ITEM None [elem LINK (Some (lit "L"))].
Definition no_desc_item : Element :=
  mkElement ITEM None [elem TITLE (Some (lit "T")); elem LINK (Some (lit "L"))].
Definition blank_item : Element :=
  mkElement ITEM None [elem TITLE None; elem LINK (Some []); elem DESCRIPTION None].

Definition feed_of (items : list Element) : Element :=
  mkElement (lit "rss") None [mkElement (lit "channel") None items].
Definition mixed_feed : Element := feed_of [no_title_item; short_item].

Definition page (content : str) : State :=
  mkState {[ INDEX_HTML := File content ]} [].
Definition both_markers : str :=
  lit "<h1>News</h1>" ++ NEWS_MARKER ++ lit "<p>" ++ TIME_MARKER ++ lit "</p>".
Definition time_marker_only : str :=
  lit "<h1>News</h1><p>" ++ TIME_MARKER ++ lit "</p>".
(** Three pieces of text around two news markers, and around two time
    markers. *)
Definition pieces : list str := [lit "<h1>"; lit "</h1><p>"; lit "</p>"].
Definition two_news_markers : str := join_with NEWS_MARKER pieces.
Definition two_time_markers : str := join_with TIME_MARKER pieces.
Definition item_a : str := lit "<li>a</li>".
Definition item_b : str := lit "<li>b</li>".

(** A page where [index.html] is a directory, beside another file. *)
Definition directory_page : State :=
  mkState {[ INDEX_HTML := Directory; "style.css"%string := File (lit "body{}") ]} [].

(** An item whose description holds both markers, written as tags. *)
Definition marker_item : Element :=
  mkElement ITEM None
    [elem TITLE (Some (lit "T")); elem LINK (Some (lit "L"));
     elem DESCRIPTION (Some (lit "x" ++ NEWS_MARKER ++ TIME_MARKER))].

(** A feed of seven valid items. *)
Definition long_feed : Element := feed_of (replicate 7 short_item).
End Samples.

(** * Properties *)

(** ** The library functions on sample strings *)

Example strip_tags_sample :
  strip_tags (lit "a<b>c<>d<<e>f<g") = lit "ac<>df<g".
Proof. reflexivity. Qed.

Example str_replace_overlapping :
  str_replace (lit "aa") (lit "b") (lit "aaa") = lit "ba".
Proof. reflexivity. Qed.

Example str_replace_empty_pattern :
  str_replace [] (lit "-") (lit "abc") = lit "-a-b-c-".
Proof. reflexivity. Qed.

Example slice_to_negative : slice_to (-1) [1; 2; 3] = [1; 2].
Proof. reflexivity. Qed.

Example strftime_sample :
  strftime Samples.now0 = lit "2024-01-02 03:04:05" ++ TAIWAN_TIME.
Proof. reflexivity. Qed.

Example findall_sample :
  findall_descendants ITEM Samples.mixed_feed
    = [Samples.no_title_item; Samples.short_item].
Proof. reflexivity. Qed.

Example universal_newlines_sample :
  universal_newlines (lit "a" ++ [CR; LF] ++ lit "b" ++ [CR] ++ lit "c" ++ [LF])
    = lit "a" ++ [LF] ++ lit "b" ++ [LF] ++ lit "c" ++ [LF].
Proof. reflexivity. Qed.

(** A page with a carriage return and no marker is rewritten with a line
    feed. *)
Example crlf_page_is_rewritten :
  (files (update_index_html Samples.now0 []
            (Samples.page (lit "a" ++ [CR; LF] ++ lit "b"))).2) !! INDEX_HTML
    = Some (File (lit "a" ++ [LF] ++ lit "b")).
Proof. by vm_compute. Qed.

(** An item with a lone surrogate cannot be encoded: the page is left
    empty and the failure is reported. *)
Example unencodable_item_empties_the_page :
  update_index_html Samples.now0 [[55296]] (Samples.page Samples.both_markers)
    = (Returns (),
       mkState {[ INDEX_HTML := File [] ]} [MsgUpdateError OtherException]).
Proof. by vm_compute. Qed.

(** A page that may not be written is left as it is. *)
Example read_only_page_is_kept :
  update_index_html Samples.now0 []
    (mkState {[ INDEX_HTML := Regular (mkRegular (Some Samples.both_markers) true false) ]} [])
    = (Returns (),
       mkState {[ INDEX_HTML := Regular (mkRegular (Some Samples.both_markers) true false) ]}
               [MsgUpdateError OtherException]).
Proof. by vm_compute. Qed.

(** A run of the whole script on a page with both markers. *)
Example main_sample :
  main (Samples.feed_world Samples.mixed_feed) (Samples.page Samples.both_markers) =
    (Returns (),
     mkState
       {[ INDEX_HTML :=
            File (lit "<h1>News</h1>" ++ NEWS_OPEN ++ UL_OPEN
                    ++ html_item (lit "L") (lit "T") (lit "abc...")
                    ++ UL_CLOSE ++ DIV_CLOSE
                    ++ lit "<p>2024-01-02 03:04:05" ++ TAIWAN_TIME ++ lit "</p>") ]}
       [MsgStart; MsgUpdated 1 (strftime Samples.now0); MsgEnd]).
Proof. by vm_compute. Qed.

(** ** Strings: prefixes and occurrences *)

Section StringFacts.
Implicit Types p s t a b : list N.

Lemma starts_with_nil s : starts_with [] s = true.
Proof. by destruct s. Qed.

Lemma starts_with_cons_true c p d s :
  starts_with (c :: p) (d :: s) = true ↔ c = d ∧ starts_with p s = true.
Proof. simpl. rewrite andb_true_iff, N.eqb_eq. tauto. Qed.

Lemma starts_with_spec p s : starts_with p s = true ↔ ∃ t, s = p ++ t.
Proof.
  revert s. induction p as [|c p IH]; intros s.
  - rewrite starts_with_nil. split; [eauto | done].
  - destruct s as [|d s].
    + simpl. split; [done | intros [t Ht]; discriminate].
    + rewrite starts_with_cons_true, IH. split.
      * intros [-> [t ->]]. eauto.
      * intros [t Ht]. simplify_eq/=. eauto.
Qed.

Lemma starts_with_app_l p a b :
  starts_with p a = true → starts_with p (a ++ b) = true.
Proof.
  rewrite !starts_with_spec. intros [t ->]. exists (t ++ b).
  by rewrite <-app_assoc.
Qed.

(** A prefix test over a concatenation is decided inside the first part,
    or straddles its end. *)
Lemma starts_with_app p a b :
  starts_with p (a ++ b) = true →
  starts_with p a = true ∨
  (length a < length p ∧ starts_with (drop (length a) p) b = true)%nat.
Proof.
  revert a. induction p as [|c p IH]; intros a H.
  - left. apply starts_with_nil.
  - destruct a as [|d a].
    + right. simpl. split; [lia | done].
    + simpl app in H. apply starts_with_cons_true in H as [-> H].
      destruct (IH _ H) as [H1 | [Hl H1]].
      * left. by apply starts_with_cons_true.
      * right. simpl. split; [lia | done].
Qed.

Lemma contains_cons p c s :
  contains p (c :: s) = starts_with p (c :: s) || contains p s.
Proof. done. Qed.

Lemma contains_cons_false p c s :
  contains p (c :: s) = false ↔
  starts_with p (c :: s) = false ∧ contains p s = false.
Proof. rewrite contains_cons. apply orb_false_iff. Qed.

Lemma contains_spec p s : contains p s = true ↔ ∃ a b, s = a ++ p ++ b.
Proof.
  induction s as [|c s IH].
  - simpl. rewrite orb_false_r, starts_with_spec. split.
    + intros [t Ht]. exists [], t. done.
    + intros (a & b & H). destruct a; [|done]. eauto.
  - rewrite contains_cons, orb_true_iff, starts_with_spec, IH. split.
    + intros [[t Ht] | (a & b & ->)].
      * exists [], t. done.
      * exists (c :: a), b. done.
    + intros (a & b & H). destruct a as [|d a]; simplify_eq/=.
      * left. eauto.
      * right. eauto.
Qed.

Lemma contains_app_false_l p a b :
  contains p (a ++ b) = false → contains p a = false.
Proof.
  intros H. apply not_true_is_false. intros Ha. apply contains_spec in Ha as (x & y & ->).
  assert (contains p ((x ++ p ++ y) ++ b) = true) as E; [|congruence].
  apply contains_spec. exists x, (y ++ b). by rewrite <-!app_assoc.
Qed.

Lemma contains_app_false_r p a b :
  contains p (a ++ b) = false → contains p b = false.
Proof.
  intros H. apply not_true_is_false. intros Hb. apply contains_spec in Hb as (x & y & ->).
  assert (contains p (a ++ x ++ p ++ y) = true) as E; [|congruence].
  apply contains_spec. exists (a ++ x), y. by rewrite <-!app_assoc.
Qed.
End StringFacts.

(** ** The scan *)

Section ScanFacts.
Variable match_at : list N → option nat.
Variable repl : list N.

Lemma scan_from_drop k s :
  scan_from match_at repl k s = scan_from match_at repl 0 (drop k s).
Proof.
  revert k. induction s as [|c s IH]; intros [|k]; try done.
  simpl scan_from at 1. by rewrite IH.
Qed.

Lemma scan_from_nil k : scan_from match_at repl k [] = [].
Proof. by destruct k. Qed.
End ScanFacts.

(** ** Tag stripping *)

Lemma until_gt_lt s n : until_gt s = Some n → (n < length s)%nat.
Proof.
  revert n. induction s as [|c s IH]; intros n; simpl; [done|].
  destruct (c =? GT).
  - intros [= <-]. lia.
  - destruct (until_gt s) as [m|]; simpl; [|done].
    intros [= <-]. specialize (IH m eq_refl). lia.
Qed.

Lemma tag_at_le s n : tag_at s = Some n → (n ≤ length s)%nat.
Proof.
  destruct s as [|c0 [|c1 s]]; simpl; try done.
  destruct ((c0 =? LT) && negb (c1 =? GT)); [|done].
  destruct (until_gt s) as [m|] eqn:E; simpl; [|done].
  intros [= <-]. apply until_gt_lt in E. lia.
Qed.

Lemma until_gt_ellipsis s : until_gt (s ++ ELLIPSIS) = until_gt s.
Proof.
  induction s as [|c s IH]; [done|]. simpl. by rewrite IH.
Qed.

Lemma tag_at_ellipsis s : tag_at (s ++ ELLIPSIS) = tag_at s.
Proof.
  destruct s as [|c0 [|c1 s]].
  - done.
  - simpl. by destruct (c0 =? LT).
  - simpl. by rewrite until_gt_ellipsis.
Qed.

Lemma strip_from_ellipsis s k :
  (k ≤ length s)%nat →
  scan_from tag_at [] k (s ++ ELLIPSIS) = scan_from tag_at [] k s ++ ELLIPSIS.
Proof.
  revert k. induction s as [|c s IH]; intros k Hk.
  - simpl in Hk. by replace k with 0%nat by lia.
  - destruct k as [|k]; simpl in Hk.
    + change (scan_from tag_at [] 0 ((c :: s) ++ ELLIPSIS)) with
        (match tag_at ((c :: s) ++ ELLIPSIS) with
         | Some (S n) => [] ++ scan_from tag_at [] n (s ++ ELLIPSIS)
         | _ => c :: scan_from tag_at [] 0 (s ++ ELLIPSIS)
         end).
      rewrite tag_at_ellipsis.
      change (scan_from tag_at [] 0 (c :: s)) with
        (match tag_at (c :: s) with
         | Some (S n) => [] ++ scan_from tag_at [] n s
         | _ => c :: scan_from tag_at [] 0 s
         end).
      destruct (tag_at (c :: s)) as [[|n]|] eqn:E.
      * by rewrite IH by lia.
      * apply tag_at_le in E. simpl in E. simpl. apply IH. lia.
      * by rewrite IH by lia.
    + simpl. apply IH. lia.
Qed.

(** The ellipsis survives tag stripping, whatever precedes it. *)
Lemma strip_tags_ellipsis s : strip_tags (s ++ ELLIPSIS) = strip_tags s ++ ELLIPSIS.
Proof. apply strip_from_ellipsis. lia. Qed.

(** Text without [<] has no tag to strip. *)
Lemma strip_tags_no_lt s : LT ∉ s → strip_tags s = s.
Proof.
  unfold strip_tags. induction s as [|c s IH]; intros H; [done|].
  apply not_elem_of_cons in H as [Hc Hs].
  assert (tag_at (c :: s) = None) as E.
  { destruct s as [|c1 s]; [done|]. simpl.
    destruct (N.eqb_spec c LT); [congruence | done]. }
  change (scan_from tag_at [] 0 (c :: s)) with
    (match tag_at (c :: s) with
     | Some (S n) => [] ++ scan_from tag_at [] n s
     | _ => c :: scan_from tag_at [] 0 s
     end).
  rewrite E. by rewrite IH.
Qed.

(** ** Literal replacement *)

Lemma starts_with_agree p x rest :
  starts_with p (x ++ rest) = true → agree p x = true.
Proof.
  revert x. induction p as [|a p IH]; intros [|b x]; try done.
  simpl. rewrite !andb_true_iff. intros [-> H]. eauto.
Qed.

Lemma forallb_seq (f : nat → bool) a n k :
  forallb f (seq a n) = true → (a ≤ k < a + n)%nat → f k = true.
Proof.
  intros H Hk. eapply forallb_forall in H; [done|]. apply in_seq. lia.
Qed.

Lemma guards_spec old x rest k :
  guards old x = true → (0 < k < length old)%nat →
  starts_with (drop k old) (x ++ rest) = false.
Proof.
  intros G Hk. apply not_true_is_false. intros H%starts_with_agree.
  eapply (forallb_seq _ _ _ k) in G; [|lia]. simpl in G. by rewrite H in G.
Qed.

Section ReplaceFacts.
Variables old new : list N.
Hypothesis old_nonempty : old ≠ [].

Local Abbreviation R := (scan_from (literal_at old) new).

Lemma str_replace_scan s : str_replace old new s = R 0%nat s.
Proof. unfold str_replace. by destruct old. Qed.

Lemma replace_cons_miss c s :
  starts_with old (c :: s) = false → R 0%nat (c :: s) = c :: R 0%nat s.
Proof. intros H. simpl. unfold literal_at. by rewrite H. Qed.

Lemma replace_cons_hit c s :
  starts_with old (c :: s) = true →
  R 0%nat (c :: s) = new ++ R (length old - 1)%nat s.
Proof.
  intros H. simpl scan_from. unfold literal_at. rewrite H.
  destruct old as [|a o]; [done|]. simpl. by rewrite Nat.sub_0_r.
Qed.

Lemma replace_here rest : R 0%nat (old ++ rest) = new ++ R 0%nat rest.
Proof.
  assert (∃ a o, old = a :: o) as (a & o & E).
  { destruct old; [done | eauto]. }
  assert (starts_with old (old ++ rest) = true) as H by (apply starts_with_spec; eauto).
  replace (old ++ rest) with (a :: o ++ rest) in * by (by rewrite E).
  rewrite replace_cons_hit by done. rewrite scan_from_drop. f_equal. f_equal.
  replace (length old - 1)%nat with (length o) by (rewrite E; simpl; lia).
  apply drop_app_length.
Qed.

(** An absent [old]: the replacement does nothing. *)
Lemma replace_absent s : contains old s = false → R 0%nat s = s.
Proof.
  induction s as [|c s IH]; [done|].
  intros [H1 H2]%contains_cons_false.
  rewrite replace_cons_miss by done. by rewrite IH.
Qed.

(** A present [old]: [new] appears. *)
Lemma replace_present s :
  contains old s = true → ∃ a b, R 0%nat s = a ++ new ++ b.
Proof.
  induction s as [|c s IH].
  - simpl. rewrite orb_false_r. intros H. by destruct old.
  - rewrite contains_cons. intros [H|H]%orb_true_iff.
    + rewrite replace_cons_hit by done. by exists [], (R (length old - 1)%nat s).
    + destruct (starts_with old (c :: s)) eqn:E.
      * rewrite replace_cons_hit by done. by exists [], (R (length old - 1)%nat s).
      * rewrite replace_cons_miss by done.
        destruct (IH H) as (a & b & ->). by exists (c :: a), b.
Qed.

(** When no match can run into [x] nor start inside [u], the scan passes
    over [u] unchanged. *)
Lemma replace_app_guarded u x rest :
  guards old x = true → contains old u = false →
  R 0%nat (u ++ x ++ rest) = u ++ R 0%nat (x ++ rest).
Proof.
  intros G. induction u as [|c u IH]; [done|].
  intros [H1 H2]%contains_cons_false. simpl app.
  rewrite replace_cons_miss; [by rewrite IH|].
  apply not_true_is_false. intros H.
  apply (starts_with_app old (c :: u)) in H as [H | [Hl H]]; [congruence|].
  rewrite (guards_spec old x rest _ G) in H; [done|]. simpl in *. lia.
Qed.

(** [s.replace(old, new) == new.join(s.split(old))] for an [old] whose
    occurrences cannot overlap. *)
Lemma replace_join_with segs :
  unbordered old = true →
  Forall (λ u, contains old u = false) segs →
  R 0%nat (join_with old segs) = join_with new segs.
Proof.
  intros U. induction 1 as [|u segs Hu Hs IH]; [done|].
  destruct segs as [|v segs].
  - simpl. by apply replace_absent.
  - change (join_with old (u :: v :: segs)) with (u ++ old ++ join_with old (v :: segs)).
    change (join_with new (u :: v :: segs)) with (u ++ new ++ join_with new (v :: segs)).
    rewrite replace_app_guarded by done.
    by rewrite replace_here, IH.
Qed.
End ReplaceFacts.

Lemma NEWS_MARKER_unbordered : unbordered NEWS_MARKER = true.
Proof. by vm_compute. Qed.

Lemma TIME_MARKER_unbordered : unbordered TIME_MARKER = true.
Proof. by vm_compute. Qed.

(** ** Where a pattern can reappear after a replacement *)

Lemma inert_app m x T :
  inert m x = true → contains m T = false → contains m (x ++ T) = false.
Proof.
  unfold inert. induction x as [|c x IH]; [done|].
  intros H HT. simpl in H. apply andb_true_iff in H as [H0 H].
  simpl app. apply contains_cons_false. split.
  - apply not_true_is_false. intros E.
    apply (starts_with_agree m (c :: x) T) in E. by rewrite E in H0.
  - apply IH; [|done]. apply forallb_forall. intros i Hi%in_seq.
    eapply forallb_forall in H; [|apply in_seq; instantiate (1 := S i); lia]. done.
Qed.

(** An [m]-free string followed by a guarded one stays [m]-free. *)
Lemma free_app_guarded m u y T :
  contains m u = false → guards m y = true →
  contains m (y ++ T) = false → contains m (u ++ y ++ T) = false.
Proof.
  intros Hu G HT. induction u as [|c u IH]; [done|].
  apply contains_cons_false in Hu as [H1 H2]. simpl app.
  apply contains_cons_false. split; [|by apply IH].
  apply not_true_is_false. intros H.
  apply (starts_with_app m (c :: u)) in H as [H | [Hl H]]; [congruence|].
  rewrite (guards_spec m y T _ G) in H; [done|]. simpl in *. lia.
Qed.

(** Text without the first character of [m] holds no start of [m]. *)
Lemma free_app_no_head a m t T :
  a ∉ t → contains (a :: m) T = false → contains (a :: m) (t ++ T) = false.
Proof.
  induction t as [|c t IH]; [done|].
  intros [Hc Ht]%not_elem_of_cons HT. simpl app.
  apply contains_cons_false. split; [|by apply IH].
  simpl. destruct (N.eqb_spec a c); [congruence | done].
Qed.

Lemma starts_with_drop_head (m : list N) j d rest :
  (j < length m)%nat → starts_with (drop j m) (d :: rest) = true → d ∈ m.
Proof.
  revert j. induction m as [|a m IH]; intros j Hj H; simpl in Hj; [lia|].
  destruct j as [|j].
  - simpl in H. apply andb_true_iff in H as [->%N.eqb_eq _]. apply elem_of_cons. by left.
  - apply elem_of_cons. right. apply (IH j); [lia | done].
Qed.

Section ReplaceFree.
Variables old new : list N.
Hypothesis old_nonempty : old ≠ [].

Local Abbreviation R := (scan_from (literal_at old) new).

(** The head of the output is the head of the input up to the first
    replacement. *)
Lemma starts_with_replace w s :
  starts_with w (R 0%nat s) = true →
  starts_with w s = true ∨
  ∃ j rest, (j < length w)%nat ∧ starts_with (drop j w) (new ++ rest) = true.
Proof.
  revert w. induction s as [|c s IH]; intros w H; [by left|].
  destruct w as [|a w]; [by left|].
  destruct (starts_with old (c :: s)) eqn:E.
  - right. rewrite replace_cons_hit in H by done.
    exists 0%nat, (R (length old - 1)%nat s). simpl. split; [lia | done].
  - rewrite replace_cons_miss in H by done.
    apply starts_with_cons_true in H as [-> H].
    destruct (IH _ H) as [H1 | (j & rest & Hj & H1)].
    + left. by apply starts_with_cons_true.
    + right. exists (S j), rest. simpl. split; [lia | done].
Qed.

(** [m] does not occur in the output when the inserted text cannot create
    it and every occurrence in the input is one that gets replaced. *)
Lemma replace_free m s :
  (∀ T, contains m T = false → contains m (new ++ T) = false) →
  (∀ j rest, (0 < j < length m)%nat →
     starts_with (drop j m) (new ++ rest) = false) →
  (∀ i, starts_with m (drop i s) = true → starts_with old (drop i s) = true) →
  m ≠ [] →
  ∀ k, contains m (R k s) = false.
Proof.
  intros Hnew Hinto Hsrc Hm. induction s as [|c s IH]; intros k.
  - rewrite scan_from_nil. by destruct m.
  - assert (∀ k, contains m (R k s) = false) as IH'.
    { apply IH. intros i. apply (Hsrc (S i)). }
    destruct k as [|k]; [|apply IH'].
    destruct (starts_with old (c :: s)) eqn:E.
    + rewrite replace_cons_hit by done. apply Hnew, IH'.
    + rewrite replace_cons_miss by done.
      apply contains_cons_false. split; [|apply IH'].
      apply not_true_is_false. intros H.
      destruct m as [|a m']; [done|].
      apply starts_with_cons_true in H as [-> H].
      apply starts_with_replace in H as [H | (j & rest & Hj & H)].
      * specialize (Hsrc 0%nat). simpl drop in Hsrc. rewrite E in Hsrc.
        assert (false = true); [|done]. apply Hsrc. by apply starts_with_cons_true.
      * specialize (Hinto (S j) rest). simpl in Hinto. rewrite H in Hinto.
        assert (true = false); [|done]. apply Hinto. lia.
Qed.
End ReplaceFree.

(** ** The two markers and the inserted texts *)

Lemma digit_range n : 48 ≤ digit n ≤ 57.
Proof.
  unfold digit. assert (n mod 10 < 10) as H by (by apply N.mod_upper_bound).
  revert H. generalize (n mod 10). intros r Hr. lia.
Qed.

Lemma strftime_head now :
  ∃ d t, strftime now = d :: t ∧ 48 ≤ d ≤ 57.
Proof. eexists _, _. split; [done | apply digit_range]. Qed.

Lemma strftime_no_lt now : LT ∉ strftime now.
Proof.
  unfold strftime, four_digits, two_digits, TAIWAN_TIME, LT. simpl.
  rewrite !not_elem_of_cons.
  repeat split; try (apply not_elem_of_nil); try done;
    match goal with |- _ ≠ digit ?n => pose proof (digit_range n); lia end.
Qed.

(** A match of a digit-free [m] cannot run into a time stamp. *)
Lemma strftime_guarded m now j rest :
  no_digit m = true → (j < length m)%nat →
  starts_with (drop j m) (strftime now ++ rest) = false.
Proof.
  intros Hm Hj. apply not_true_is_false. intros H.
  destruct (strftime_head now) as (d & t & Ht & Hd). rewrite Ht in H.
  apply starts_with_drop_head in H; [|done].
  unfold no_digit in Hm. rewrite forallb_forall in Hm.
  apply list_elem_of_In, Hm in H.
  apply negb_true_iff, andb_false_iff in H as [H%N.leb_gt | H%N.leb_gt]; lia.
Qed.

Lemma news_html_cases now news_items :
  (news_items = [] ∧ news_html now news_items = UNAVAILABLE) ∨
  (news_items ≠ [] ∧ news_html now news_items = UL_OPEN ++ join news_items ++ UL_CLOSE).
Proof. destruct news_items; [by left | by right]. Qed.

Lemma update_time_strftime now news_items :
  update_time now news_items = strftime now.
Proof. by destruct news_items. Qed.

Section Markers.
Variable now : datetime.
Variable news_items : list (list N).

Local Abbreviation inserted :=
  (NEWS_OPEN ++ news_html now news_items ++ DIV_CLOSE).

(** The inserted container never recreates the empty container, provided
    the items do not spell it out themselves. *)
Lemma inserted_free T :
  contains NEWS_MARKER (join news_items) = false →
  contains NEWS_MARKER T = false →
  contains NEWS_MARKER (inserted ++ T) = false.
Proof.
  intros HJ HT.
  destruct (news_html_cases now news_items) as [[_ ->] | [_ ->]].
  - apply (inert_app NEWS_MARKER (NEWS_OPEN ++ UNAVAILABLE ++ DIV_CLOSE) T) in HT;
      [done | by vm_compute].
  - assert ((NEWS_OPEN ++ (UL_OPEN ++ join news_items ++ UL_CLOSE) ++ DIV_CLOSE) ++ T
            = (NEWS_OPEN ++ UL_OPEN) ++ join news_items ++ (UL_CLOSE ++ DIV_CLOSE) ++ T)
      as -> by (by rewrite <-!app_assoc).
    apply inert_app; [by vm_compute|].
    apply free_app_guarded; [done | by vm_compute|].
    apply inert_app; [by vm_compute | done].
Qed.

Lemma inserted_guarded j rest :
  (0 < j < length NEWS_MARKER)%nat →
  starts_with (drop j NEWS_MARKER) (inserted ++ rest) = false.
Proof.
  intros Hj. rewrite <-app_assoc.
  apply guards_spec; [by vm_compute | done].
Qed.

(** After the first replacement the empty container is gone. *)
Lemma news_step_free s :
  contains NEWS_MARKER (join news_items) = false →
  contains NEWS_MARKER (str_replace NEWS_MARKER inserted s) = false.
Proof.
  intros HJ. rewrite str_replace_scan by done.
  apply replace_free; try done.
  - intros T. by apply inserted_free.
  - apply inserted_guarded.
Qed.

(** The second replacement removes every time marker and creates no
    marker of either kind. *)
Lemma time_step_free_time s :
  contains TIME_MARKER (str_replace TIME_MARKER (update_time now news_items) s) = false.
Proof.
  rewrite str_replace_scan by done.
  rewrite update_time_strftime.
  apply replace_free; try done.
  - intros T. apply free_app_no_head, strftime_no_lt.
  - intros j rest Hj. apply strftime_guarded; [by vm_compute | lia].
Qed.

Lemma time_step_free_news s :
  contains NEWS_MARKER s = false →
  contains NEWS_MARKER (str_replace TIME_MARKER (update_time now news_items) s) = false.
Proof.
  intros Hs. rewrite str_replace_scan by done.
  rewrite update_time_strftime.
  apply replace_free; try done.
  - intros T. apply free_app_no_head, strftime_no_lt.
  - intros j rest Hj. apply strftime_guarded; [by vm_compute | lia].
  - intros i H. exfalso.
    assert (contains NEWS_MARKER (take i s ++ drop i s) = false) as Hs'
      by (by rewrite take_drop).
    apply contains_app_false_r in Hs'.
    destruct (drop i s); [done|]. apply contains_cons_false in Hs' as [? _]. congruence.
Qed.

(** Both markers are consumed by one substitution. *)
Lemma substitute_consumes s :
  contains NEWS_MARKER (join news_items) = false →
  contains NEWS_MARKER (substitute now news_items s) = false ∧
  contains TIME_MARKER (substitute now news_items s) = false.
Proof.
  intros HJ. unfold substitute. split.
  - by apply time_step_free_news, news_step_free.
  - apply time_step_free_time.
Qed.
End Markers.

(** ** Blocks the scan passes over *)

Lemma starts_with_length p s :
  starts_with p s = true → (length p ≤ length s)%nat.
Proof. intros [t ->]%starts_with_spec. rewrite length_app. lia. Qed.

Lemma inert_cons m c x :
  inert m (c :: x) = true → agree m (c :: x) = false ∧ inert m x = true.
Proof.
  unfold inert. simpl. intros [H0 H]%andb_true_iff. split.
  - by apply negb_true_iff.
  - apply forallb_forall. intros i Hi%in_seq.
    eapply forallb_forall in H; [|apply in_seq; instantiate (1 := S i); lia]. done.
Qed.

Section ReplaceBlocks.
Variables old new : list N.
Hypothesis old_nonempty : old ≠ [].

Local Abbreviation R := (scan_from (literal_at old) new).

Lemma replace_inert x b :
  inert old x = true → R 0%nat (x ++ b) = x ++ R 0%nat b.
Proof.
  induction x as [|c x IH]; [done|].
  intros [H0 H]%inert_cons. simpl app.
  rewrite replace_cons_miss; [by rewrite IH|].
  apply not_true_is_false. intros E.
  apply (starts_with_agree old (c :: x) b) in E. congruence.
Qed.

Lemma replace_before_guarded a x b k :
  guards old x = true → (k ≤ length a)%nat →
  R k (a ++ x ++ b) = R k a ++ R 0%nat (x ++ b).
Proof.
  intros G. revert k. induction a as [|c a IH]; intros k Hk; simpl in Hk.
  - by replace k with 0%nat by lia.
  - destruct k as [|k]; [|simpl; apply IH; lia].
    destruct (starts_with old (c :: a)) eqn:E.
    + pose proof (starts_with_length _ _ E) as Hl. simpl in Hl.
      assert (starts_with old (c :: a ++ x ++ b) = true) as E'
        by (by apply (starts_with_app_l old (c :: a))).
      rewrite <-app_comm_cons. rewrite (replace_cons_hit old new old_nonempty _ _ E).
      rewrite (replace_cons_hit old new old_nonempty _ _ E').
      rewrite <-app_assoc. f_equal. apply IH. lia.
    + assert (starts_with old (c :: a ++ x ++ b) = false) as E'.
      { apply not_true_is_false. intros H.
        apply (starts_with_app old (c :: a)) in H as [H | [Hl H]]; [congruence|].
        rewrite (guards_spec old x b _ G) in H; [done|]. simpl in *. lia. }
      rewrite <-app_comm_cons. rewrite (replace_cons_miss old new _ _ E).
      rewrite (replace_cons_miss old new _ _ E').
      simpl. f_equal. apply IH. lia.
Qed.

(** A block that no match can enter or start in is copied as it is, and
    the text on either side is treated as if it stood alone. *)
Lemma replace_block a x b :
  guards old x = true → inert old x = true →
  R 0%nat (a ++ x ++ b) = R 0%nat a ++ x ++ R 0%nat b.
Proof.
  intros G I. rewrite replace_before_guarded by (done || lia).
  by rewrite replace_inert.
Qed.
End ReplaceBlocks.

(** ** The two functions as state transformers *)

(** Writing translates nothing on a POSIX system. *)
Lemma newlines_out_id s : newlines_out s = s.
Proof.
  unfold newlines_out. rewrite str_replace_scan by done.
  induction s as [|c s IH]; [done|].
  destruct (starts_with [LF] (c :: s)) eqn:E.
  - rewrite replace_cons_hit by done.
    apply starts_with_cons_true in E as [<- _]. simpl. by rewrite IH.
  - rewrite replace_cons_miss by done. by rewrite IH.
Qed.

(** A replacement of encodable text by encodable text is encodable. *)
Lemma scan_encodable old new k s :
  encodable new = true → encodable s = true →
  encodable (scan_from (literal_at old) new k s) = true.
Proof.
  intros Hnew. revert k. induction s as [|c s IH]; intros k Hs; [by destruct k|].
  simpl in Hs. apply andb_true_iff in Hs as [Hc Hs].
  destruct k as [|k]; simpl; [|by apply IH].
  destruct (literal_at old (c :: s)) as [[|n]|].
  - simpl. by rewrite Hc, IH.
  - unfold encodable. rewrite forallb_app. fold (encodable new).
    rewrite Hnew. by apply IH.
  - simpl. by rewrite Hc, IH.
Qed.

Lemma str_replace_encodable old new s :
  old ≠ [] → encodable new = true → encodable s = true →
  encodable (str_replace old new s) = true.
Proof. intros Ho Hn Hs. rewrite str_replace_scan by done. by apply scan_encodable. Qed.

Lemma universal_newlines_encodable s :
  encodable s = true → encodable (universal_newlines s) = true.
Proof. intros Hs. unfold universal_newlines. by repeat apply str_replace_encodable. Qed.

Lemma digit_scalar n : scalar (digit n) = true.
Proof.
  pose proof (digit_range n) as H. unfold scalar.
  apply orb_true_iff. left. apply N.ltb_lt. lia.
Qed.

Lemma strftime_encodable now : encodable (strftime now) = true.
Proof.
  unfold strftime, four_digits, two_digits, TAIWAN_TIME. simpl.
  by rewrite !digit_scalar.
Qed.

Lemma encodable_app a b :
  encodable (a ++ b) = true ↔ encodable a = true ∧ encodable b = true.
Proof. unfold encodable. rewrite forallb_app. apply andb_true_iff. Qed.

Lemma substitute_encodable now news_items html :
  encodable html = true → encodable (join news_items) = true →
  encodable (substitute now news_items html) = true.
Proof.
  intros Hh Hj. unfold substitute. rewrite update_time_strftime.
  apply str_replace_encodable; [done | apply strftime_encodable|].
  apply str_replace_encodable; [done | | done].
  destruct (news_html_cases now news_items) as [[_ ->] | [_ ->]]; [done|].
  rewrite !encodable_app. by repeat split.
Qed.

(** The updater on a readable and writable text page: the text read is
    substituted and, when it can be encoded, written back. *)
Lemma update_existing now news_items st content html :
  files st !! INDEX_HTML = Some (File content) →
  universal_newlines content = html →
  encodable (substitute now news_items html) = true →
  update_index_html now news_items st =
    (Returns (),
     mkState (<[INDEX_HTML := File (substitute now news_items html)]> (files st))
             (console st ++ [MsgUpdated (length news_items) (update_time now news_items)])).
Proof.
  intros H <- He. unfold update_index_html, try_except, mbind, py_bind, read_text, write_text.
  rewrite H. simpl. rewrite H. simpl. rewrite He. simpl.
  by rewrite newlines_out_id.
Qed.

(** Text that cannot be encoded empties the page. *)
Lemma update_unencodable now news_items st content html :
  files st !! INDEX_HTML = Some (File content) →
  universal_newlines content = html →
  encodable (substitute now news_items html) = false →
  update_index_html now news_items st =
    (Returns (),
     mkState (<[INDEX_HTML := File []]> (files st))
             (console st ++ [MsgUpdateError OtherException])).
Proof.
  intros H <- He. unfold update_index_html, try_except, mbind, py_bind, read_text, write_text.
  rewrite H. simpl. rewrite H. simpl. by rewrite He.
Qed.

Lemma update_missing now news_items st :
  files st !! INDEX_HTML = None →
  update_index_html now news_items st =
    (Returns (), mkState (files st) (console st ++ [MsgNotFound])).
Proof.
  intros H. unfold update_index_html, try_except, mbind, py_bind, read_text.
  by rewrite H.
Qed.

Lemma fetch_body_success w num_items st r root :
  requests_get w RSS_URL 10%Z = inr r →
  raise_for_status w r = inr () →
  fromstring w (content r) = inr root →
  fetch_body w num_items st =
    (Returns (render_items (slice_to num_items (findall_descendants ITEM root))), st).
Proof.
  intros Hget Hst Hparse. unfold fetch_body, mbind, py_bind.
  rewrite Hget. simpl. rewrite Hst. simpl. by rewrite Hparse.
Qed.

Lemma fetch_success w num_items st r root :
  requests_get w RSS_URL 10%Z = inr r →
  raise_for_status w r = inr () →
  fromstring w (content r) = inr root →
  fetch_bbc_news w num_items st =
    (Returns (render_items (slice_to num_items (findall_descendants ITEM root))), st).
Proof.
  intros Hget Hst Hparse. unfold fetch_bbc_news, try_except.
  by rewrite (fetch_body_success _ _ _ _ _ Hget Hst Hparse).
Qed.

(** The body of the [try] never touches the state. *)
Lemma fetch_body_state w num_items st :
  (fetch_body w num_items st).2 = st.
Proof.
  unfold fetch_body, mbind, py_bind.
  destruct (requests_get w RSS_URL 10%Z) as [e|r]; [done|]. simpl.
  destruct (raise_for_status w r) as [e|[]]; [done|]. simpl.
  by destruct (fromstring w (content r)).
Qed.

(** Whatever the body raises, the handlers turn into an empty list and one
    printed line. *)
Lemma fetch_handles w num_items st e st' :
  fetch_body w num_items st = (Raises e, st') →
  ∃ l, fetch_bbc_news w num_items st =
         (Returns [], mkState (files st) (console st ++ [l])).
Proof.
  intros H. pose proof (fetch_body_state w num_items st) as Hst.
  rewrite H in Hst. simpl in Hst. subst st'.
  unfold fetch_bbc_news, try_except. rewrite H. simpl.
  destruct (is_RequestException e); [by eexists|].
  destruct (is_ParseError e); by eexists.
Qed.

(** The fetcher always returns, and leaves the files alone. *)
Lemma fetch_returns w num_items st :
  ∃ items ls, fetch_bbc_news w num_items st =
                (Returns items, mkState (files st) (console st ++ ls)).
Proof.
  destruct (fetch_body w num_items st) as [[items|e] st'] eqn:E.
  - pose proof (fetch_body_state w num_items st) as Hst. rewrite E in Hst.
    simpl in Hst. subst st'.
    exists items, []. unfold fetch_bbc_news, try_except. rewrite E.
    destruct st. simpl. by rewrite app_nil_r.
  - destruct (fetch_handles _ _ _ _ _ E) as [l ->]. by eexists _, _.
Qed.

(** The loop keeps the order of the items and drops those it skips. *)
Lemma render_items_omap selected :
  render_items selected = omap render_item selected.
Proof.
  induction selected as [|item rest IH]; [done|]. simpl.
  destruct (render_item item); by rewrite IH.
Qed.

Lemma render_items_app l1 l2 :
  render_items (l1 ++ l2) = render_items l1 ++ render_items l2.
Proof. rewrite !render_items_omap. apply omap_app. Qed.

(** ** The loop and the count of items *)

Lemma render_item_valid item : is_Some (render_item item) ↔ valid item = true.
Proof.
  unfold render_item, valid.
  destruct (find TITLE item), (find LINK item); simpl;
    split; (done || by intros [? ?] || eauto).
Qed.

Lemma length_render_items l :
  length (render_items l) = length (List.filter valid l).
Proof.
  induction l as [|item l IH]; [done|]. simpl.
  pose proof (render_item_valid item) as Hv.
  destruct (render_item item), (valid item); simpl; try by rewrite IH.
  - destruct Hv as [Hv _]. by specialize (Hv (mk_is_Some _ _ eq_refl)).
  - destruct Hv as [_ Hv]. by destruct (Hv eq_refl).
Qed.

Lemma length_filter_take (f : Element → bool) n l :
  (length (List.filter f (take n l)) ≤ length (List.filter f l))%nat.
Proof.
  rewrite <-(take_drop n l) at 2. rewrite List.filter_app, length_app. lia.
Qed.

Lemma length_filter_le (f : Element → bool) l :
  (length (List.filter f l) ≤ length l)%nat.
Proof. induction l as [|x l IH]; simpl; [lia|]. destruct (f x); simpl; lia. Qed.

Lemma filter_all_true (f : Element → bool) l :
  Forall (λ x, f x = true) l → List.filter f l = l.
Proof. induction 1 as [|x l Hx Hl IH]; [done|]. simpl. by rewrite Hx, IH. Qed.

(** ** The claims about the fetcher *)

(** C1, as amended.  For an item with a title, a link and a description of
    non-empty text, the rendered description is the tag-stripped form of the
    first 100 characters of the text, followed by the ellipsis: the ellipsis
    is appended whether or not the text is longer than 100 characters, and
    it is the first 100 characters as they are when they hold no [<]. *)
Theorem description_truncated_then_stripped item t l d txt :
  find TITLE item = Some t → find LINK item = Some l →
  find DESCRIPTION item = Some d → text d = Some txt → txt ≠ [] →
  ∃ desc,
    render_item item =
      Some (html_item (text_or (text l) NO_LINK) (text_or (text t) NO_TITLE) desc) ∧
    desc = strip_tags (take 100 txt) ++ ELLIPSIS ∧
    ((length txt ≤ 100)%nat → desc = strip_tags txt ++ ELLIPSIS) ∧
    (LT ∉ take 100 txt → desc = take 100 txt ++ ELLIPSIS).
Proof.
  intros Ht Hl Hd Htxt Hne.
  exists (strip_tags (take 100 txt) ++ ELLIPSIS). split; [|split; [done|split]].
  - unfold render_item, raw_desc. rewrite Ht, Hl, Hd, Htxt.
    destruct txt as [|c txt]; [done|]. by rewrite strip_tags_ellipsis.
  - intros Hlen. by rewrite take_ge by lia.
  - intros Hlt. by rewrite strip_tags_no_lt.
Qed.

Lemma description_truncated_then_stripped_witness :
  ∃ desc,
    render_item Samples.tagged_item = Some (html_item (lit "L") (lit "T") desc) ∧
    desc = strip_tags (take 100 Samples.tagged_text) ++ ELLIPSIS ∧
    ((length Samples.tagged_text ≤ 100)%nat →
       desc = strip_tags Samples.tagged_text ++ ELLIPSIS) ∧
    (LT ∉ take 100 Samples.tagged_text → desc = take 100 Samples.tagged_text ++ ELLIPSIS).
Proof.
  apply (description_truncated_then_stripped Samples.tagged_item
           (Samples.elem TITLE (Some (lit "T"))) (Samples.elem LINK (Some (lit "L")))
           (Samples.elem DESCRIPTION (Some Samples.tagged_text)) Samples.tagged_text);
    reflexivity || discriminate.
Defined.

(** C1 as it stands fails: a description of three characters is rendered
    with the ellipsis, not unchanged; and a description of 103 characters
    that begins with a tag is not rendered as its first 100 characters and
    the ellipsis, the tag being stripped after the truncation. *)
Lemma short_description_gets_ellipsis :
  (length (lit "abc") ≤ 100)%nat ∧
  render_item Samples.short_item =
    Some (html_item (lit "L") (lit "T") (lit "abc...")) ∧
  render_item Samples.short_item ≠
    Some (html_item (lit "L") (lit "T") (strip_tags (lit "abc"))) ∧
  (100 < length Samples.tagged_text)%nat ∧
  render_item Samples.tagged_item =
    Some (html_item (lit "L") (lit "T") (replicate 97 97 ++ ELLIPSIS)) ∧
  render_item Samples.tagged_item ≠
    Some (html_item (lit "L") (lit "T") (take 100 Samples.tagged_text ++ ELLIPSIS)).
Proof.
  split; [vm_compute; lia|]. split; [by vm_compute|]. split; [by vm_compute|].
  split; [vm_compute; lia|]. split; by vm_compute.
Qed.

(** C3, as amended.  On a feed that is fetched and parsed, the fetcher
    returns the renderings, in document order, of those among the selected
    item elements (the first N for N >= 0) that have both a title and a link.
    With K valid items in the feed this is at most min(K, N) items, and
    exactly min(K, N) when each of the first N item elements is valid. *)
Theorem fetch_renders_valid_among_first w n st r root :
  requests_get w RSS_URL 10%Z = inr r → raise_for_status w r = inr () →
  fromstring w (content r) = inr root →
  let items := findall_descendants ITEM root in
  let K := length (List.filter valid items) in
  ∃ out,
    fetch_bbc_news w n st = (Returns out, st) ∧
    out = omap render_item (slice_to n items) ∧
    ((0 ≤ n)%Z →
       out = omap render_item (take (Z.to_nat n) items) ∧
       (Z.of_nat (length out) ≤ Z.min (Z.of_nat K) n)%Z ∧
       (Forall (λ i, valid i = true) (take (Z.to_nat n) items) →
          Z.of_nat (length out) = Z.min (Z.of_nat K) n)).
Proof.
  intros Hget Hst Hparse items K.
  exists (render_items (slice_to n items)).
  split; [by apply (fetch_success _ _ _ r)|].
  split; [apply render_items_omap|].
  intros Hn. unfold slice_to. destruct (Z.leb_spec 0 n); [|lia].
  split; [apply render_items_omap|].
  rewrite length_render_items.
  pose proof (length_filter_take valid (Z.to_nat n) items) as H1.
  pose proof (length_filter_le valid (take (Z.to_nat n) items)) as H2.
  rewrite length_take in H2. fold K in H1.
  split; [lia|].
  intros Hall. rewrite (filter_all_true _ _ Hall), length_take.
  assert (K = length (take (Z.to_nat n) items)
              + length (List.filter valid (drop (Z.to_nat n) items)))%nat as HK.
  { unfold K. rewrite <-(take_drop (Z.to_nat n) items) at 1.
    by rewrite List.filter_app, length_app, (filter_all_true _ _ Hall). }
  rewrite length_take in HK.
  pose proof (length_filter_le valid (drop (Z.to_nat n) items)) as H3.
  rewrite length_drop in H3. lia.
Qed.

Lemma fetch_renders_valid_among_first_witness :
  ∃ out,
    fetch_bbc_news (Samples.feed_world Samples.mixed_feed) 2 Samples.st0
      = (Returns out, Samples.st0) ∧
    out = omap render_item (slice_to 2 [Samples.no_title_item; Samples.short_item]) ∧
    ((0 ≤ 2)%Z →
       out = omap render_item
               (take (Z.to_nat 2) [Samples.no_title_item; Samples.short_item]) ∧
       (Z.of_nat (length out) ≤ Z.min (Z.of_nat 1) 2)%Z ∧
       (Forall (λ i, valid i = true)
          (take (Z.to_nat 2) [Samples.no_title_item; Samples.short_item]) →
          Z.of_nat (length out) = Z.min (Z.of_nat 1) 2)).
Proof.
  apply (fetch_renders_valid_among_first (Samples.feed_world Samples.mixed_feed)
           2 Samples.st0 (mkResponse 200 []) Samples.mixed_feed); reflexivity.
Defined.

(** C3 as it stands fails: the feed holds K = 1 valid item, after an item
    without a title; with N = 1 the only selected element is the one that
    is skipped, and the fetcher returns no item where min(K, N) = 1. *)
Lemma skipped_item_uses_up_the_count :
  findall_descendants ITEM Samples.mixed_feed
    = [Samples.no_title_item; Samples.short_item] ∧
  length (List.filter valid (findall_descendants ITEM Samples.mixed_feed)) = 1%nat ∧
  fetch_bbc_news (Samples.feed_world Samples.mixed_feed) 1 Samples.st0
    = (Returns [], Samples.st0) ∧
  Z.of_nat (length (@nil (list N))) ≠ Z.min 1 1.
Proof. repeat split; by vm_compute. Qed.

(** C4.  A selected item without a title element or without a link element
    is absent from the fetcher's output, which is returned normally and
    with nothing printed; an item that lacks only the description element is
    rendered, at its place, with the placeholder description. *)
Theorem item_without_title_or_link_is_skipped w n st r root before item after :
  requests_get w RSS_URL 10%Z = inr r → raise_for_status w r = inr () →
  fromstring w (content r) = inr root →
  slice_to n (findall_descendants ITEM root) = before ++ item :: after →
  ((find TITLE item = None ∨ find LINK item = None) →
     render_item item = None ∧
     fetch_bbc_news w n st =
       (Returns (render_items before ++ render_items after), st)) ∧
  (∀ t l, find TITLE item = Some t → find LINK item = Some l →
     find DESCRIPTION item = None →
     fetch_bbc_news w n st =
       (Returns (render_items before ++
                 html_item (text_or (text l) NO_LINK) (text_or (text t) NO_TITLE) NO_DESC
                 :: render_items after), st)).
Proof.
  intros Hget Hst Hparse Hsel.
  rewrite (fetch_success _ _ _ _ _ Hget Hst Hparse), Hsel, render_items_app.
  split.
  - intros H. assert (render_item item = None) as E.
    { unfold render_item. destruct H as [-> | ->]; [done|].
      by destruct (find TITLE item). }
    split; [done|]. simpl. by rewrite E.
  - intros t l Ht Hl Hd. simpl.
    unfold render_item, raw_desc. by rewrite Ht, Hl, Hd.
Qed.

Lemma item_without_title_or_link_is_skipped_witness :
  (render_item Samples.no_title_item = None ∧
   fetch_bbc_news (Samples.feed_world Samples.mixed_feed) 5 Samples.st0 =
     (Returns (render_items [] ++ render_items [Samples.short_item]), Samples.st0)) ∧
  fetch_bbc_news
    (Samples.feed_world (Samples.feed_of [Samples.short_item; Samples.no_desc_item]))
    5 Samples.st0 =
    (Returns (render_items [Samples.short_item] ++
              html_item (lit "L") (lit "T") NO_DESC :: render_items []), Samples.st0).
Proof.
  split.
  - apply (item_without_title_or_link_is_skipped
             (Samples.feed_world Samples.mixed_feed) 5 Samples.st0
             (mkResponse 200 []) Samples.mixed_feed
             [] Samples.no_title_item [Samples.short_item]);
      try reflexivity. by left.
  - apply (proj2 (item_without_title_or_link_is_skipped
             (Samples.feed_world (Samples.feed_of [Samples.short_item; Samples.no_desc_item]))
             5 Samples.st0 (mkResponse 200 [])
             (Samples.feed_of [Samples.short_item; Samples.no_desc_item])
             [Samples.short_item] Samples.no_desc_item []
             eq_refl eq_refl eq_refl eq_refl)
             (Samples.elem TITLE (Some (lit "T"))) (Samples.elem LINK (Some (lit "L"))));
      reflexivity.
Defined.

(** An item is skipped exactly when its title or its link element is
    absent. *)
Lemma render_item_none item :
  render_item item = None ↔ find TITLE item = None ∨ find LINK item = None.
Proof.
  unfold render_item.
  destruct (find TITLE item), (find LINK item); split; intros H;
    try done; try (by left); try (by right); by destruct H.
Qed.

(** C10.  An item whose title and link elements are both present is
    rendered, at its place in the output, whatever their text: a title
    without text gives the placeholder title, a link without text gives
    [#], a description element without text gives the placeholder
    description.  Only the absence of the title or of the link element makes
    the loop skip an item. *)
Theorem present_elements_without_text_get_placeholders item t l :
  find TITLE item = Some t → find LINK item = Some l →
  ∃ title link desc,
    render_item item = Some (html_item link title desc) ∧
    (∀ before after,
       render_items (before ++ item :: after) =
         render_items before ++ html_item link title desc :: render_items after) ∧
    ((text t = None ∨ text t = Some []) → title = NO_TITLE) ∧
    ((text l = None ∨ text l = Some []) → link = NO_LINK) ∧
    (∀ d, find DESCRIPTION item = Some d →
       (text d = None ∨ text d = Some []) → desc = NO_DESC) ∧
    (∀ other, render_item other = None →
       find TITLE other = None ∨ find LINK other = None).
Proof.
  intros Ht Hl.
  assert (render_item item =
            Some (html_item (text_or (text l) NO_LINK) (text_or (text t) NO_TITLE)
                    (strip_tags (raw_desc (find DESCRIPTION item))))) as E.
  { unfold render_item. by rewrite Ht, Hl. }
  eexists _, _, _. split; [exact E|]. split; [|split; [|split; [|split]]].
  - intros before after. rewrite render_items_app. simpl. by rewrite E.
  - by intros [-> | ->].
  - by intros [-> | ->].
  - intros d -> Hd. unfold raw_desc. by destruct Hd as [-> | ->].
  - intros other. apply render_item_none.
Qed.

Lemma present_elements_without_text_get_placeholders_witness :
  ∃ title link desc,
    render_item Samples.blank_item = Some (html_item link title desc) ∧
    (∀ before after,
       render_items (before ++ Samples.blank_item :: after) =
         render_items before ++ html_item link title desc :: render_items after) ∧
    ((@None (list N) = None ∨ @None (list N) = Some []) → title = NO_TITLE) ∧
    ((Some [] = @None (list N) ∨ Some [] = Some (@nil N)) → link = NO_LINK) ∧
    (∀ d, find DESCRIPTION Samples.blank_item = Some d →
       (text d = None ∨ text d = Some []) → desc = NO_DESC) ∧
    (∀ other, render_item other = None →
       find TITLE other = None ∨ find LINK other = None).
Proof.
  apply (present_elements_without_text_get_placeholders Samples.blank_item
           (Samples.elem TITLE None) (Samples.elem LINK (Some []))); reflexivity.
Defined.

(** The failures of [fetch_failure] are all the ways the body can raise. *)
Lemma fetch_body_raises w n st e st' :
  fetch_body w n st = (Raises e, st') ↔ fetch_failure w e ∧ st' = st.
Proof.
  unfold fetch_body, mbind, py_bind. split.
  - destruct (requests_get w RSS_URL 10%Z) as [e0|r] eqn:Hget; simpl.
    { intros [= <- <-]. split; [by apply request_raises | done]. }
    destruct (raise_for_status w r) as [e1|[]] eqn:Hst; simpl.
    { intros [= <- <-]. split; [by apply (status_raises w r) | done]. }
    destruct (fromstring w (content r)) as [e2|root] eqn:Hparse; simpl.
    { intros [= <- <-]. split; [by apply (parser_raises w r) | done]. }
    done.
  - intros [H ->]. destruct H as [e Hget | r e Hget Hst | r e Hget Hst Hparse];
      rewrite Hget; simpl; [done | |]; rewrite Hst; simpl; [done|].
    by rewrite Hparse.
Qed.

(** C5.  When the request raises (time-out, connection error or any other
    exception), when the status check raises, or when the parser raises
    (malformed XML or any other exception), the fetcher returns the empty
    list: it prints one line and nothing is raised to the caller. *)
Theorem fetch_failure_returns_empty_list w e :
  fetch_failure w e →
  ∀ n st, ∃ l,
    fetch_bbc_news w n st = (Returns [], mkState (files st) (console st ++ [l])).
Proof.
  intros H n st. apply (fetch_handles w n st e st).
  apply fetch_body_raises. done.
Qed.

Lemma fetch_failure_returns_empty_list_witness :
  (∀ n st, ∃ l,
     fetch_bbc_news Samples.timeout_world n st =
       (Returns [], mkState (files st) (console st ++ [l]))) ∧
  (∀ n st, ∃ l,
     fetch_bbc_news Samples.server_error_world n st =
       (Returns [], mkState (files st) (console st ++ [l]))) ∧
  (∀ n st, ∃ l,
     fetch_bbc_news Samples.malformed_world n st =
       (Returns [], mkState (files st) (console st ++ [l]))).
Proof.
  split; [|split].
  - apply (fetch_failure_returns_empty_list Samples.timeout_world Timeout).
    apply request_raises. reflexivity.
  - apply (fetch_failure_returns_empty_list Samples.server_error_world (HTTPError 500)).
    apply (status_raises _ (mkResponse 500 [])); reflexivity.
  - apply (fetch_failure_returns_empty_list Samples.malformed_world ParseError).
    apply (parser_raises _ (mkResponse 200 [])); reflexivity.
Defined.

(** ** The markers through the two replacements *)

Lemma contains_mid (x a b : list N) : contains x (a ++ x ++ b) = true.
Proof. apply contains_spec. eauto. Qed.

Section Survival.
Variable now : datetime.
Variable news_items : list (list N).

Local Abbreviation inserted :=
  (NEWS_OPEN ++ news_html now news_items ++ DIV_CLOSE).
Local Abbreviation Rtime :=
  (scan_from (literal_at TIME_MARKER) (update_time now news_items)).
Local Abbreviation Rnews := (scan_from (literal_at NEWS_MARKER) inserted).

(** The inserted container goes through the second replacement as it is,
    unless the items themselves spell out the time marker. *)
Lemma inserted_survives a b :
  contains TIME_MARKER (join news_items) = false →
  Rtime 0%nat (a ++ inserted ++ b) = Rtime 0%nat a ++ inserted ++ Rtime 0%nat b.
Proof.
  intros HJ. destruct (news_html_cases now news_items) as [[_ ->] | [_ ->]].
  - apply replace_block; done || by vm_compute.
  - assert (∀ c, (NEWS_OPEN ++ (UL_OPEN ++ join news_items ++ UL_CLOSE) ++ DIV_CLOSE) ++ c
                 = (NEWS_OPEN ++ UL_OPEN) ++ join news_items ++ (UL_CLOSE ++ DIV_CLOSE) ++ c)
      as E by (intros c; by rewrite <-!app_assoc).
    rewrite !E.
    rewrite (replace_before_guarded TIME_MARKER) by (done || lia || by vm_compute).
    rewrite (replace_inert TIME_MARKER) by (done || by vm_compute).
    rewrite (replace_app_guarded TIME_MARKER) by (done || by vm_compute).
    rewrite (replace_inert TIME_MARKER) by (done || by vm_compute).
    by rewrite <-!app_assoc.
Qed.

(** A time marker goes through the first replacement as it is. *)
Lemma time_marker_survives a b :
  Rnews 0%nat (a ++ TIME_MARKER ++ b) = Rnews 0%nat a ++ TIME_MARKER ++ Rnews 0%nat b.
Proof. apply replace_block; done || by vm_compute. Qed.

Lemma substitute_scan s :
  substitute now news_items s = Rtime 0%nat (Rnews 0%nat s).
Proof. unfold substitute. by rewrite !str_replace_scan. Qed.

(** Where the file had the empty container, the result has the filled one. *)
Lemma substitute_fills s :
  contains NEWS_MARKER s = true →
  contains TIME_MARKER (join news_items) = false →
  contains inserted (substitute now news_items s) = true.
Proof.
  intros Hs HJ. rewrite substitute_scan.
  destruct (replace_present NEWS_MARKER inserted ltac:(done) s Hs) as (a & b & ->).
  rewrite inserted_survives by done. apply contains_mid.
Qed.

(** Where the file had the time marker, the result has the time. *)
Lemma substitute_stamps s :
  contains TIME_MARKER s = true →
  contains (strftime now) (substitute now news_items s) = true.
Proof.
  intros Hs. rewrite substitute_scan.
  apply contains_spec in Hs as (a & b & ->). rewrite time_marker_survives.
  destruct (replace_present TIME_MARKER (update_time now news_items) ltac:(done)
              (Rnews 0%nat a ++ TIME_MARKER ++ Rnews 0%nat b)) as (x & y & ->).
  - apply contains_mid.
  - rewrite update_time_strftime. apply contains_mid.
Qed.
End Survival.

(** ** Reading the page back *)

Lemma substitute_without_markers now news_items html :
  contains NEWS_MARKER html = false → contains TIME_MARKER html = false →
  substitute now news_items html = html.
Proof.
  intros Hn Ht. unfold substitute. rewrite !str_replace_scan by done.
  rewrite (replace_absent NEWS_MARKER) by done. by apply replace_absent.
Qed.


Lemma contains_singleton c s : contains [c] s = false ↔ c ∉ s.
Proof.
  induction s as [|d s IH]; [by split; [intros _; apply not_elem_of_nil|]|].
  rewrite contains_cons_false, not_elem_of_cons, IH. simpl.
  rewrite andb_true_r. destruct (N.eqb_spec c d) as [E|E]; split.
  - by intros [? _].
  - by intros [? _].
  - by intros [_ ?].
  - by intros [_ ?].
Qed.

Lemma contains_elem c m s : c ∉ s → contains (c :: m) s = false.
Proof.
  intros H. rewrite <-(app_nil_r s). by apply free_app_no_head.
Qed.

(** A replacement brings in no character that neither the text nor the
    inserted text holds. *)
Lemma scan_not_elem c old new k s :
  c ∉ new → c ∉ s → c ∉ scan_from (literal_at old) new k s.
Proof.
  intros Hnew. revert k. induction s as [|d s IH]; intros k Hs; [by destruct k|].
  apply not_elem_of_cons in Hs as [Hd Hs].
  destruct k as [|k]; simpl; [|by apply IH].
  destruct (literal_at old (d :: s)) as [[|n]|].
  - apply not_elem_of_cons. split; [done | by apply IH].
  - apply not_elem_of_app. split; [done | by apply IH].
  - apply not_elem_of_cons. split; [done | by apply IH].
Qed.

(** A pattern absent from the text stays absent when the inserted text can
    neither hold nor complete it. *)
Lemma replace_free_absent old new m s :
  old ≠ [] → m ≠ [] → inert m new = true → guards m new = true →
  contains m s = false → contains m (str_replace old new s) = false.
Proof.
  intros Ho Hm Hi Hg Hs. rewrite str_replace_scan by done.
  apply replace_free; try done.
  - intros T. by apply inert_app.
  - intros j rest Hj. by apply guards_spec.
  - intros i H. exfalso.
    assert (contains m (take i s ++ drop i s) = false) as Hs' by (by rewrite take_drop).
    apply contains_app_false_r in Hs'.
    destruct (drop i s); [by destruct m|].
    apply contains_cons_false in Hs' as [? _]. congruence.
Qed.

(** Text read from a file holds no carriage return. *)
Lemma universal_newlines_no_cr s : CR ∉ universal_newlines s.
Proof.
  apply contains_singleton. unfold universal_newlines.
  rewrite (str_replace_scan [CR]) by done.
  apply (replace_free [CR] [LF] ltac:(done) [CR]).
  - intros T HT. apply contains_cons_false. split; [done | exact HT].
  - intros j rest Hj. simpl in Hj. lia.
  - done.
  - done.
Qed.

(** Text without carriage return is read back as it is. *)
Lemma universal_newlines_id s : CR ∉ s → universal_newlines s = s.
Proof.
  intros H. unfold universal_newlines. rewrite !str_replace_scan by done.
  rewrite (replace_absent [CR; LF]) by (by apply contains_elem).
  apply replace_absent. by apply contains_singleton.
Qed.

(** Reading back creates neither marker. *)
Lemma universal_newlines_free m s :
  m ≠ [] → inert m [LF] = true → guards m [LF] = true →
  contains m s = false → contains m (universal_newlines s) = false.
Proof.
  intros Hm Hi Hg Hs. unfold universal_newlines.
  by repeat apply replace_free_absent.
Qed.

Lemma substitute_no_cr now news_items html :
  CR ∉ html → CR ∉ join news_items → CR ∉ substitute now news_items html.
Proof.
  intros Hh Hj. unfold substitute. rewrite !str_replace_scan by done.
  apply scan_not_elem.
  - rewrite update_time_strftime. intros Hin.
    assert (encodable (strftime now) = true) as _ by apply strftime_encodable.
    unfold strftime, four_digits, two_digits, TAIWAN_TIME in Hin. simpl in Hin.
    rewrite !elem_of_cons in Hin.
    repeat (destruct Hin as [Hin | Hin];
            [first [discriminate Hin
                   | match type of Hin with _ = digit ?n =>
                       pose proof (digit_range n); unfold CR in Hin; lia end]|]).
    by apply elem_of_nil in Hin.
  - apply scan_not_elem; [|done].
    destruct (news_html_cases now news_items) as [[_ ->] | [_ ->]].
    + apply contains_singleton. by vm_compute.
    + rewrite !not_elem_of_app. repeat split; try done;
        apply contains_singleton; by vm_compute.
Qed.

(** ** The claims about the page updater *)

(** C2, as amended.  The replacement acts on the empty container only, and
    the first run consumes it: when the items of A, taken together, do not
    spell out the news marker, a second run with any B rewrites the file
    with the text the first run wrote, as it is read back (a carriage return
    in the items of A is read as a line feed), and inserts nothing of B;
    without carriage return in A the file is exactly as the first run wrote
    it.  Where the text of the file had the news marker (and A does not
    spell out the time marker) the first run's text holds the container
    filled with the items of A. *)
Theorem second_run_keeps_first_result now1 now2 A B st content html :
  files st !! INDEX_HTML = Some (File content) →
  universal_newlines content = html →
  encodable html = true → encodable (join A) = true →
  contains NEWS_MARKER (join A) = false →
  let first := substitute now1 A html in
  let st1 := (update_index_html now1 A st).2 in
  let st2 := (update_index_html now2 B st1).2 in
  files st1 !! INDEX_HTML = Some (File first) ∧
  substitute now2 B (universal_newlines first) = universal_newlines first ∧
  files st2 !! INDEX_HTML = Some (File (universal_newlines first)) ∧
  (CR ∉ join A → universal_newlines first = first ∧ files st2 = files st1) ∧
  (contains NEWS_MARKER html = true → contains TIME_MARKER (join A) = false →
     contains (NEWS_OPEN ++ news_html now1 A ++ DIV_CLOSE) first = true).
Proof.
  intros Hfile Hread Hh HeA HA first st1 st2.
  assert (encodable first = true) as He1 by (by apply substitute_encodable).
  assert (files st1 = <[INDEX_HTML := File first]> (files st)) as H1.
  { unfold st1. by rewrite (update_existing _ _ _ _ _ Hfile Hread). }
  assert (files st1 !! INDEX_HTML = Some (File first)) as H1'.
  { rewrite H1. apply lookup_insert_eq. }
  destruct (substitute_consumes now1 A html HA) as [Hn Ht]. fold first in Hn, Ht.
  assert (substitute now2 B (universal_newlines first) = universal_newlines first) as Hfix.
  { apply substitute_without_markers; by apply universal_newlines_free. }
  assert (files st2 = <[INDEX_HTML := File (universal_newlines first)]> (files st1)) as H2.
  { unfold st2. rewrite (update_existing _ _ _ first (universal_newlines first) H1' eq_refl).
    - simpl. by rewrite Hfix.
    - rewrite Hfix. by apply universal_newlines_encodable. }
  split; [done|]. split; [done|]. split; [|split].
  - rewrite H2. apply lookup_insert_eq.
  - intros Hcr.
    assert (universal_newlines first = first) as Hid.
    { apply universal_newlines_id, substitute_no_cr; [|done].
      rewrite <-Hread. apply universal_newlines_no_cr. }
    split; [done|]. rewrite H2, Hid. by apply insert_id.
  - intros Hc HT. by apply substitute_fills.
Qed.

Lemma second_run_keeps_first_result_witness :
  let first := substitute Samples.now0 [Samples.item_a] Samples.both_markers in
  let st1 := (update_index_html Samples.now0 [Samples.item_a]
                (Samples.page Samples.both_markers)).2 in
  let st2 := (update_index_html Samples.now1 [Samples.item_b] st1).2 in
  files st1 !! INDEX_HTML = Some (File first) ∧
  substitute Samples.now1 [Samples.item_b] (universal_newlines first)
    = universal_newlines first ∧
  files st2 !! INDEX_HTML = Some (File (universal_newlines first)) ∧
  (CR ∉ join [Samples.item_a] → universal_newlines first = first ∧ files st2 = files st1) ∧
  (contains NEWS_MARKER Samples.both_markers = true →
   contains TIME_MARKER (join [Samples.item_a]) = false →
     contains (NEWS_OPEN ++ news_html Samples.now0 [Samples.item_a] ++ DIV_CLOSE) first
       = true).
Proof.
  apply (second_run_keeps_first_result Samples.now0 Samples.now1
           [Samples.item_a] [Samples.item_b]
           (Samples.page Samples.both_markers) Samples.both_markers Samples.both_markers);
    reflexivity.
Defined.

(** C2 as it stands fails: on a file with both markers, after a run with
    the item a and a run with the item b, the file holds the list with a,
    and b is nowhere in it. *)
Lemma second_run_does_not_replace_the_news :
  contains NEWS_MARKER Samples.both_markers = true ∧
  contains TIME_MARKER Samples.both_markers = true ∧
  let st1 := (update_index_html Samples.now0 [Samples.item_a]
                (Samples.page Samples.both_markers)).2 in
  let st2 := (update_index_html Samples.now1 [Samples.item_b] st1).2 in
  ∃ final,
    files st2 !! INDEX_HTML = Some (File final) ∧
    final = lit "<h1>News</h1>" ++ NEWS_OPEN ++ UL_OPEN ++ Samples.item_a ++ UL_CLOSE
              ++ DIV_CLOSE ++ lit "<p>2024-01-02 03:04:05" ++ TAIWAN_TIME ++ lit "</p>" ∧
    contains Samples.item_a final = true ∧
    contains Samples.item_b final = false.
Proof.
  split; [by vm_compute|]. split; [by vm_compute|].
  eexists. split; [by vm_compute|]. repeat split; by vm_compute.
Qed.

(** C6.  With an empty list of items, on a file whose text holds both markers,
    the file is rewritten: it holds the container filled with the fallback
    message and no empty container, it holds the time and no time marker,
    and the time is the one a non-empty list would give. *)
Theorem empty_items_give_fallback_and_time now st content html :
  files st !! INDEX_HTML = Some (File content) →
  universal_newlines content = html → encodable html = true →
  contains NEWS_MARKER html = true →
  contains TIME_MARKER html = true →
  ∃ content',
    update_index_html now [] st =
      (Returns (),
       mkState (<[INDEX_HTML := File content']> (files st))
               (console st ++ [MsgUpdated 0 (strftime now)])) ∧
    contains (NEWS_OPEN ++ UNAVAILABLE ++ DIV_CLOSE) content' = true ∧
    contains NEWS_MARKER content' = false ∧
    contains (strftime now) content' = true ∧
    contains TIME_MARKER content' = false ∧
    (∀ news_items, update_time now [] = update_time now news_items).
Proof.
  intros Hfile Hread Henc Hn Ht. exists (substitute now [] html).
  split.
  { rewrite (update_existing _ _ _ _ _ Hfile Hread); [done|].
    by apply substitute_encodable. }
  destruct (substitute_consumes now [] html eq_refl) as [Fn Ft].
  split; [by apply (substitute_fills now [])|].
  split; [done|].
  split; [by apply substitute_stamps|].
  split; [done|].
  intros news_items. by rewrite !update_time_strftime.
Qed.

Lemma empty_items_give_fallback_and_time_witness :
  ∃ content',
    update_index_html Samples.now0 [] (Samples.page Samples.both_markers) =
      (Returns (),
       mkState (<[INDEX_HTML := File content']> (files (Samples.page Samples.both_markers)))
               (console (Samples.page Samples.both_markers)
                  ++ [MsgUpdated 0 (strftime Samples.now0)])) ∧
    contains (NEWS_OPEN ++ UNAVAILABLE ++ DIV_CLOSE) content' = true ∧
    contains NEWS_MARKER content' = false ∧
    contains (strftime Samples.now0) content' = true ∧
    contains TIME_MARKER content' = false ∧
    (∀ news_items, update_time Samples.now0 [] = update_time Samples.now0 news_items).
Proof.
  apply (empty_items_give_fallback_and_time Samples.now0
           (Samples.page Samples.both_markers) Samples.both_markers Samples.both_markers);
    reflexivity.
Defined.

(** C7.  On a file whose text has no news marker the first replacement does
    nothing and the second is made all the same: the file is rewritten with
    the text in which each time marker is replaced by the time and every
    other part is as it was; without a time marker either, the text is
    unchanged.  The second replacement likewise does nothing when the text
    it receives has no time marker. *)
Theorem absent_marker_leaves_text_alone now news_items st content html :
  files st !! INDEX_HTML = Some (File content) →
  universal_newlines content = html →
  encodable html = true → encodable (join news_items) = true →
  ∃ content',
    update_index_html now news_items st =
      (Returns (),
       mkState (<[INDEX_HTML := File content']> (files st))
               (console st ++ [MsgUpdated (length news_items) (strftime now)])) ∧
    (contains NEWS_MARKER html = false →
       content' = str_replace TIME_MARKER (strftime now) html ∧
       (contains TIME_MARKER html = false → content' = html) ∧
       (∀ segs, Forall (λ u, contains TIME_MARKER u = false) segs →
          html = join_with TIME_MARKER segs →
          content' = join_with (strftime now) segs)) ∧
    (contains TIME_MARKER
       (str_replace NEWS_MARKER (NEWS_OPEN ++ news_html now news_items ++ DIV_CLOSE)
          html) = false →
       content' =
         str_replace NEWS_MARKER (NEWS_OPEN ++ news_html now news_items ++ DIV_CLOSE)
           html).
Proof.
  intros Hfile Hread Henc Hitems. exists (substitute now news_items html).
  split.
  { rewrite (update_existing _ _ _ _ _ Hfile Hread), update_time_strftime; [done|].
    by apply substitute_encodable. }
  unfold substitute. rewrite update_time_strftime. split.
  - intros Hn.
    rewrite (str_replace_scan NEWS_MARKER) by done.
    rewrite (replace_absent NEWS_MARKER) by done.
    split; [done|]. rewrite str_replace_scan by done. split.
    + intros Ht. by apply replace_absent.
    + intros segs Hsegs ->. by apply replace_join_with.
  - intros Ht. rewrite (str_replace_scan TIME_MARKER) by done.
    by apply replace_absent.
Qed.

Lemma absent_marker_leaves_text_alone_witness :
  ∃ content',
    update_index_html Samples.now0 [Samples.item_a]
      (Samples.page Samples.time_marker_only) =
      (Returns (),
       mkState (<[INDEX_HTML := File content']>
                  (files (Samples.page Samples.time_marker_only)))
               (console (Samples.page Samples.time_marker_only)
                  ++ [MsgUpdated (length [Samples.item_a]) (strftime Samples.now0)])) ∧
    content' = join_with (strftime Samples.now0) [lit "<h1>News</h1><p>"; lit "</p>"].
Proof.
  destruct (absent_marker_leaves_text_alone Samples.now0 [Samples.item_a]
              (Samples.page Samples.time_marker_only) Samples.time_marker_only
              Samples.time_marker_only eq_refl eq_refl eq_refl eq_refl)
    as (content' & Hrun & Hnews & _).
  exists content'. split; [exact Hrun|].
  destruct (Hnews eq_refl) as (_ & _ & Hsegs).
  apply Hsegs; [|reflexivity].
  repeat constructor.
Defined.

(** C8.  The replacements are literal and global.  A text made of pieces
    (free of the news marker) joined by the news marker, however many, has
    every one of them replaced by the filled container, the pieces left as
    they are; and when the text that reaches the second replacement is made
    of pieces (free of the time marker) joined by the time marker, every one
    of them is replaced by the time. *)
Theorem every_occurrence_of_a_marker_is_replaced now news_items st content html :
  files st !! INDEX_HTML = Some (File content) →
  universal_newlines content = html →
  encodable html = true → encodable (join news_items) = true →
  let inserted := NEWS_OPEN ++ news_html now news_items ++ DIV_CLOSE in
  ∃ content',
    update_index_html now news_items st =
      (Returns (),
       mkState (<[INDEX_HTML := File content']> (files st))
               (console st ++ [MsgUpdated (length news_items) (strftime now)])) ∧
    (∀ segs, Forall (λ u, contains NEWS_MARKER u = false) segs →
       html = join_with NEWS_MARKER segs →
       str_replace NEWS_MARKER inserted html = join_with inserted segs ∧
       content' = str_replace TIME_MARKER (strftime now) (join_with inserted segs)) ∧
    (∀ segs, Forall (λ u, contains TIME_MARKER u = false) segs →
       str_replace NEWS_MARKER inserted html = join_with TIME_MARKER segs →
       content' = join_with (strftime now) segs).
Proof.
  intros Hfile Hread Henc Hitems inserted. exists (substitute now news_items html).
  split.
  { rewrite (update_existing _ _ _ _ _ Hfile Hread), update_time_strftime; [done|].
    by apply substitute_encodable. }
  unfold substitute. rewrite update_time_strftime. fold inserted. split.
  - intros segs Hsegs ->.
    assert (str_replace NEWS_MARKER inserted (join_with NEWS_MARKER segs)
            = join_with inserted segs) as E.
    { rewrite str_replace_scan by done. by apply replace_join_with. }
    by rewrite E.
  - intros segs Hsegs ->. rewrite str_replace_scan by done.
    by apply replace_join_with.
Qed.

Lemma every_occurrence_of_a_marker_is_replaced_witness :
  let inserted := NEWS_OPEN ++ news_html Samples.now0 [Samples.item_a] ++ DIV_CLOSE in
  (∃ content',
     update_index_html Samples.now0 [Samples.item_a]
       (Samples.page Samples.two_news_markers) =
       (Returns (),
        mkState (<[INDEX_HTML := File content']>
                   (files (Samples.page Samples.two_news_markers)))
                (console (Samples.page Samples.two_news_markers)
                   ++ [MsgUpdated 1 (strftime Samples.now0)])) ∧
     content' = str_replace TIME_MARKER (strftime Samples.now0)
                  (join_with inserted Samples.pieces)) ∧
  (∃ content',
     update_index_html Samples.now0 [Samples.item_a]
       (Samples.page Samples.two_time_markers) =
       (Returns (),
        mkState (<[INDEX_HTML := File content']>
                   (files (Samples.page Samples.two_time_markers)))
                (console (Samples.page Samples.two_time_markers)
                   ++ [MsgUpdated 1 (strftime Samples.now0)])) ∧
     content' = join_with (strftime Samples.now0) Samples.pieces).
Proof.
  intros inserted. split.
  - destruct (every_occurrence_of_a_marker_is_replaced Samples.now0 [Samples.item_a]
                (Samples.page Samples.two_news_markers) Samples.two_news_markers
                Samples.two_news_markers eq_refl eq_refl eq_refl eq_refl)
      as (content' & Hrun & Hnews & _).
    exists content'. split; [exact Hrun|].
    apply (Hnews Samples.pieces); [repeat constructor | reflexivity].
  - destruct (every_occurrence_of_a_marker_is_replaced Samples.now0 [Samples.item_a]
                (Samples.page Samples.two_time_markers) Samples.two_time_markers
                Samples.two_time_markers eq_refl eq_refl eq_refl eq_refl)
      as (content' & Hrun & _ & Htime).
    exists content'. split; [exact Hrun|].
    apply (Htime Samples.pieces); [repeat constructor | by vm_compute].
Defined.

(** C9.  When [index.html] does not exist, the updater writes nothing: the
    files are as before, the only effect is the line that reports the
    missing file, and the updater returns normally; the whole script then
    returns normally too, its files untouched and its last line printed. *)
Theorem missing_file_is_reported_not_written now news_items w st :
  files st !! INDEX_HTML = None →
  update_index_html now news_items st =
    (Returns (), mkState (files st) (console st ++ [MsgNotFound])) ∧
  ∃ lines,
    main w st = (Returns (), mkState (files st) (console st ++ lines)) ∧
    last lines = Some MsgEnd ∧ MsgNotFound ∈ lines.
Proof.
  intros Hfile. split; [by apply update_missing|].
  unfold main, mbind, py_bind, print. simpl.
  destruct (fetch_returns w 5 (mkState (files st) (console st ++ [MsgStart])))
    as (items & ls & ->). simpl.
  rewrite update_missing by done. simpl.
  exists ([MsgStart] ++ ls ++ [MsgNotFound] ++ [MsgEnd]). split; [|split].
  - by rewrite <-!app_assoc.
  - by rewrite !app_assoc, last_snoc.
  - set_solver.
Qed.

Lemma missing_file_is_reported_not_written_witness :
  update_index_html Samples.now0 [Samples.item_a] Samples.st0 =
    (Returns (), mkState (files Samples.st0) (console Samples.st0 ++ [MsgNotFound])) ∧
  ∃ lines,
    main (Samples.feed_world Samples.mixed_feed) Samples.st0 =
      (Returns (), mkState (files Samples.st0) (console Samples.st0 ++ lines)) ∧
    last lines = Some MsgEnd ∧ MsgNotFound ∈ lines.
Proof.
  apply (missing_file_is_reported_not_written Samples.now0 [Samples.item_a]
           (Samples.feed_world Samples.mixed_feed) Samples.st0).
  reflexivity.
Defined.


(** * Further properties of the two functions *)

(** ** Tag stripping only deletes, and leaves no tag *)

Lemma scan_delete_sublist (match_at : list N → option nat) k s :
  scan_from match_at [] k s `sublist_of` s.
Proof.
  revert k. induction s as [|c s IH]; intros k; [by destruct k|].
  destruct k as [|k]; simpl.
  - destruct (match_at (c :: s)) as [[|n]|].
    + by apply sublist_skip.
    + simpl. by apply sublist_cons.
    + by apply sublist_skip.
  - by apply sublist_cons.
Qed.

Lemma until_gt_none s : until_gt s = None ↔ GT ∉ s.
Proof.
  induction s as [|c s IH]; simpl.
  - split; [intros _; apply not_elem_of_nil | done].
  - rewrite not_elem_of_cons. destruct (N.eqb_spec c GT) as [->|Hc].
    + split; [done | by intros [? _]].
    + destruct (until_gt s); simpl.
      * split; [done|]. intros [_ H]. by apply IH in H.
      * split; [|done]. intros _. split; [done | by apply IH].
Qed.

Lemma until_gt_app body rest :
  GT ∉ body → until_gt (body ++ GT :: rest) = Some (length body).
Proof.
  induction body as [|c body IH]; intros H; [done|].
  apply not_elem_of_cons in H as [Hc H]. simpl.
  destruct (N.eqb_spec c GT); [done|]. by rewrite IH.
Qed.

Lemma tag_at_not_zero s : tag_at s ≠ Some 0%nat.
Proof.
  destruct s as [|c0 [|c1 s]]; simpl; try done.
  destruct ((c0 =? LT) && negb (c1 =? GT)); [|done].
  destruct (until_gt s); simpl; [|done]. intros [=]. lia.
Qed.

(** The pattern matches at the head exactly when the text starts with a
    [<], one or more characters other than [>], and a [>]. *)
Lemma tag_at_shape body rest :
  body ≠ [] → GT ∉ body → tag_at (LT :: body ++ GT :: rest) ≠ None.
Proof.
  intros Hne Hgt. destruct body as [|c body]; [done|].
  apply not_elem_of_cons in Hgt as [Hc Hgt]. simpl.
  destruct (N.eqb_spec c GT); [done|]. simpl. by rewrite until_gt_app.
Qed.

Lemma strip_from_tag_free s k i :
  tag_at (drop i (scan_from tag_at [] k s)) = None.
Proof.
  revert k i. induction s as [|c s IH]; intros k i.
  { rewrite scan_from_nil. by destruct i. }
  destruct k as [|k]; [|apply IH].
  assert (tag_at (c :: s) = None → tag_at (c :: scan_from tag_at [] 0 s) = None) as Hhead.
  { intros E. destruct s as [|c1 s]; [done|].
    simpl in E. destruct (N.eqb_spec c LT) as [->|Hc]; simpl in E.
    - destruct (N.eqb_spec c1 GT) as [->|Hc1]; simpl in E.
      + by destruct s.
      + destruct (until_gt s) eqn:Eu; [done|]. apply until_gt_none in Eu.
        assert (GT ∉ scan_from tag_at [] 0 (c1 :: s)) as Hout.
        { intros Hin. eapply elem_of_sublist in Hin; [|apply scan_delete_sublist].
          apply elem_of_cons in Hin as [? | ?]; [by subst | done]. }
        destruct (scan_from tag_at [] 0 (c1 :: s)) as [|x o]; [done|].
        apply not_elem_of_cons in Hout as [Hx Ho]. simpl.
        destruct (N.eqb_spec x GT); [done|]. simpl.
        apply until_gt_none in Ho. by rewrite Ho.
    - destruct (scan_from tag_at [] 0 (c1 :: s)) as [|x o]; [done|]. simpl.
      by destruct (N.eqb_spec c LT). }
  change (scan_from tag_at [] 0 (c :: s)) with
    (match tag_at (c :: s) with
     | Some (S n) => [] ++ scan_from tag_at [] n s
     | _ => c :: scan_from tag_at [] 0 s
     end).
  pose proof (tag_at_not_zero (c :: s)) as Hz.
  destruct (tag_at (c :: s)) as [[|n]|] eqn:E; [done | apply IH |].
  destruct i as [|i]; [by apply Hhead | apply IH].
Qed.

Lemma strip_tags_fixed s :
  (∀ i, tag_at (drop i s) = None) → strip_tags s = s.
Proof.
  unfold strip_tags. induction s as [|c s IH]; intros H; [done|].
  change (scan_from tag_at [] 0 (c :: s)) with
    (match tag_at (c :: s) with
     | Some (S n) => [] ++ scan_from tag_at [] n s
     | _ => c :: scan_from tag_at [] 0 s
     end).
  pose proof (H 0%nat) as H0. simpl drop in H0. rewrite H0.
  f_equal. apply IH. intros i. apply (H (S i)).
Qed.

Lemma render_item_parts item :
  valid item = true →
  render_item item =
    Some (html_item (rendered_link item) (rendered_title item) (rendered_desc item)).
Proof.
  unfold valid, render_item, rendered_link, rendered_title, rendered_desc.
  by destruct (find TITLE item), (find LINK item).
Qed.

Lemma strip_tags_no_tag s a body b :
  body ≠ [] → GT ∉ body → strip_tags s ≠ a ++ LT :: body ++ GT :: b.
Proof.
  intros Hne Hgt E.
  pose proof (strip_from_tag_free s 0 (length a)) as H.
  fold (strip_tags s) in H. rewrite E, drop_app_length in H.
  by apply (tag_at_shape body b).
Qed.

(** X1.  The description of a rendered item holds no tag: nowhere in it is
    there a [<] followed by one or more characters other than [>] and then
    a [>], whatever markup the feed's text had. *)
Theorem rendered_description_has_no_tag item a body b :
  valid item = true → body ≠ [] → GT ∉ body →
  render_item item =
    Some (html_item (rendered_link item) (rendered_title item) (rendered_desc item)) ∧
  rendered_desc item ≠ a ++ LT :: body ++ GT :: b.
Proof.
  intros Hv Hne Hgt. split; [by apply render_item_parts|].
  by apply strip_tags_no_tag.
Qed.

Lemma rendered_description_has_no_tag_witness :
  render_item Samples.tagged_item =
    Some (html_item (rendered_link Samples.tagged_item)
            (rendered_title Samples.tagged_item) (rendered_desc Samples.tagged_item)) ∧
  rendered_desc Samples.tagged_item ≠ [] ++ LT :: lit "b" ++ GT :: replicate 97 97 ++ ELLIPSIS.
Proof.
  apply (rendered_description_has_no_tag Samples.tagged_item []
           (lit "b") (replicate 97 97 ++ ELLIPSIS)).
  - reflexivity.
  - discriminate.
  - change (GT ∉ [98]). intros H%list_elem_of_singleton. discriminate H.
Defined.

(** X2.  The description of an item is never longer than 103 characters:
    at most 100 characters of the feed's text and the ellipsis, or the
    placeholder. *)
Theorem rendered_description_is_short item :
  (length (rendered_desc item) ≤ 103)%nat.
Proof.
  unfold rendered_desc.
  etransitivity; [apply sublist_length, scan_delete_sublist|].
  assert (length NO_DESC ≤ 103)%nat as Hp by (unfold NO_DESC; simpl; lia).
  unfold raw_desc. destruct (find DESCRIPTION item) as [d|]; [|done].
  destruct (text d) as [[|c txt]|]; [done | | done].
  rewrite length_app, length_take.
  change (length ELLIPSIS) with 3%nat. lia.
Qed.

(** X3.  Tag stripping only deletes characters, the ones it keeps staying
    in order, and a second pass over its result changes nothing. *)
Theorem strip_tags_deletes_once s :
  strip_tags s `sublist_of` s ∧ strip_tags (strip_tags s) = strip_tags s.
Proof.
  split; [apply scan_delete_sublist|].
  apply strip_tags_fixed. intros i. apply strip_from_tag_free.
Qed.

(** ** The count given to the fetcher *)

Lemma slice_to_take {A} n (l : list A) :
  ∃ k, slice_to n l = take k l ∧
       (n = 0%Z → k = 0%nat) ∧
       ((Z.of_nat (length l) ≤ n)%Z → (length l ≤ k)%nat) ∧
       ((n < 0)%Z → k = (length l - Z.to_nat (- n))%nat).
Proof.
  unfold slice_to. destruct (Z.leb_spec 0 n).
  - exists (Z.to_nat n). repeat split; lia.
  - exists (length l - Z.to_nat (- n))%nat. repeat split; lia.
Qed.

(** X4.  Whatever count is asked for, the fetcher returns a prefix of the
    rendering of all the item elements of the feed: nothing for a count of
    0, everything for a count that reaches the number of item elements, and
    for a negative count the rendering of all but the last item elements,
    as many as the count says. *)
Theorem fetch_returns_prefix_of_rendering w n st r root :
  requests_get w RSS_URL 10%Z = inr r → raise_for_status w r = inr () →
  fromstring w (content r) = inr root →
  let items := findall_descendants ITEM root in
  ∃ out rest,
    fetch_bbc_news w n st = (Returns out, st) ∧
    render_items items = out ++ rest ∧
    (n = 0%Z → out = []) ∧
    ((Z.of_nat (length items) ≤ n)%Z → out = render_items items) ∧
    ((n < 0)%Z →
       out = render_items (take (length items - Z.to_nat (- n)) items)).
Proof.
  intros Hget Hst Hparse items.
  destruct (slice_to_take n items) as (k & Hk & H0 & Hall & Hneg).
  exists (render_items (take k items)), (render_items (drop k items)).
  split; [|split; [|split; [|split]]].
  - rewrite (fetch_success _ _ _ _ _ Hget Hst Hparse). fold items. by rewrite Hk.
  - by rewrite <-render_items_app, take_drop.
  - intros ->. by rewrite H0.
  - intros H. by rewrite take_ge by auto.
  - intros H. by rewrite Hneg.
Qed.

Lemma fetch_returns_prefix_of_rendering_witness :
  ∃ out rest,
    fetch_bbc_news (Samples.feed_world Samples.long_feed) (-2) Samples.st0
      = (Returns out, Samples.st0) ∧
    render_items (replicate 7 Samples.short_item) = out ++ rest ∧
    ((-2)%Z = 0%Z → out = []) ∧
    ((Z.of_nat (length (replicate 7 Samples.short_item)) ≤ -2)%Z →
       out = render_items (replicate 7 Samples.short_item)) ∧
    ((-2 < 0)%Z →
       out = render_items
               (take (length (replicate 7 Samples.short_item) - Z.to_nat (- -2))
                  (replicate 7 Samples.short_item))).
Proof.
  apply (fetch_returns_prefix_of_rendering (Samples.feed_world Samples.long_feed)
           (-2) Samples.st0 (mkResponse 200 []) Samples.long_feed); reflexivity.
Defined.

(** ** The updater and the script never fail *)

Lemma update_directory now news_items st :
  files st !! INDEX_HTML = Some Directory →
  update_index_html now news_items st =
    (Returns (), mkState (files st) (console st ++ [MsgUpdateError OtherException])).
Proof.
  intros H. unfold update_index_html, try_except, mbind, py_bind, read_text.
  by rewrite H.
Qed.

Lemma update_frame now news_items st :
  ∃ fs' l,
    update_index_html now news_items st =
      (Returns (), mkState fs' (console st ++ [l])) ∧
    (∀ path, path ≠ INDEX_HTML → fs' !! path = files st !! path).
Proof.
  unfold update_index_html, try_except, mbind, py_bind, read_text, write_text.
  destruct (files st !! INDEX_HTML) as [[[[text|] [|] [|]]|]|] eqn:E; simpl;
    rewrite ?E; simpl;
    try (eexists _, _; split; [reflexivity | done]).
  destruct (encodable _); simpl; eexists _, _; (split; [reflexivity|]);
    intros path Hp; by apply lookup_insert_ne.
Qed.

(** The updater on a regular file that cannot be read as text or cannot be
    written: nothing is written. *)
Lemma update_refused now news_items st f :
  files st !! INDEX_HTML = Some (Regular f) →
  may_read f = false ∨ decoded f = None ∨ may_write f = false →
  update_index_html now news_items st =
    (Returns (), mkState (files st) (console st ++ [MsgUpdateError OtherException])).
Proof.
  intros E H.
  unfold update_index_html, try_except, mbind, py_bind, read_text, write_text.
  rewrite E. destruct f as [[text|] [|] [|]]; simpl in *; rewrite ?E; simpl;
    try done; by destruct H as [? | [? | ?]].
Qed.

(** X5.  The updater always returns normally and prints exactly one line,
    and it changes no path but [index.html].  When [index.html] is missing,
    is a directory, or is a regular file that cannot be read as UTF-8 text
    or cannot be written, no file changes and the line reports the failure.
    On a readable and writable text file, the text read is substituted and
    written back when it can be encoded; when it cannot, the file is left
    empty and the line reports the failure. *)
Theorem update_returns_and_touches_one_path now news_items st :
  ∃ fs' l,
    update_index_html now news_items st =
      (Returns (), mkState fs' (console st ++ [l])) ∧
    (∀ path, path ≠ INDEX_HTML → fs' !! path = files st !! path) ∧
    (files st !! INDEX_HTML = None → fs' = files st ∧ l = MsgNotFound) ∧
    (files st !! INDEX_HTML = Some Directory →
       fs' = files st ∧ l = MsgUpdateError OtherException) ∧
    (∀ f, files st !! INDEX_HTML = Some (Regular f) →
       may_read f = false ∨ decoded f = None ∨ may_write f = false →
       fs' = files st ∧ l = MsgUpdateError OtherException) ∧
    (∀ content, files st !! INDEX_HTML = Some (File content) →
       let html' := substitute now news_items (universal_newlines content) in
       if encodable html'
       then fs' !! INDEX_HTML = Some (File html') ∧
            l = MsgUpdated (length news_items) (strftime now)
       else fs' !! INDEX_HTML = Some (File []) ∧
            l = MsgUpdateError OtherException).
Proof.
  destruct (update_frame now news_items st) as (fs' & l & Hrun & Hframe).
  exists fs', l. split; [done|]. split; [done|].
  split; [|split; [|split]].
  - intros E. rewrite (update_missing _ _ _ E) in Hrun.
    injection Hrun as <- ?%app_inv_head. by simplify_eq.
  - intros E. rewrite (update_directory _ _ _ E) in Hrun.
    injection Hrun as <- ?%app_inv_head. by simplify_eq.
  - intros f E H. rewrite (update_refused _ _ _ _ E H) in Hrun.
    injection Hrun as <- ?%app_inv_head. by simplify_eq.
  - intros content E html'.
    destruct (encodable html') eqn:He.
    + rewrite (update_existing _ _ _ _ _ E eq_refl He) in Hrun.
      injection Hrun as <- ?%app_inv_head. simplify_eq.
      split; [apply lookup_insert_eq | by rewrite update_time_strftime].
    + rewrite (update_unencodable _ _ _ _ _ E eq_refl He) in Hrun.
      injection Hrun as <- ?%app_inv_head. simplify_eq.
      split; [apply lookup_insert_eq | done].
Qed.

Lemma fetch_prints_at_most_one_line w num_items st :
  ∃ items ls,
    fetch_bbc_news w num_items st =
      (Returns items, mkState (files st) (console st ++ ls)) ∧
    (length ls ≤ 1)%nat.
Proof.
  destruct (fetch_body w num_items st) as [[items|e] st'] eqn:E.
  - pose proof (fetch_body_state w num_items st) as Hst. rewrite E in Hst.
    simpl in Hst. subst st'.
    exists items, []. unfold fetch_bbc_news, try_except. rewrite E.
    destruct st. simpl. rewrite app_nil_r. split; [done | lia].
  - destruct (fetch_handles _ _ _ _ _ E) as [l ->].
    exists [], [l]. split; [done | simpl; lia].
Qed.

(** X6.  The script always runs to its end: whatever the network, the
    parser and the files do, [main] returns normally, its first line and
    its last line are printed with one or two lines between them, and no
    path but [index.html] is changed. *)
Theorem main_always_returns w st :
  ∃ fs' lines,
    main w st =
      (Returns (), mkState fs' (console st ++ MsgStart :: lines ++ [MsgEnd])) ∧
    (1 ≤ length lines ≤ 2)%nat ∧
    (∀ path, path ≠ INDEX_HTML → fs' !! path = files st !! path).
Proof.
  unfold main, mbind, py_bind, print. simpl.
  destruct (fetch_prints_at_most_one_line w 5
              (mkState (files st) (console st ++ [MsgStart])))
    as (items & ls & -> & Hls). simpl.
  destruct (update_frame (clock w) items
              (mkState (files st) ((console st ++ [MsgStart]) ++ ls)))
    as (fs' & l & -> & Hframe). simpl in *.
  exists fs', (ls ++ [l]). split; [|split; [|done]].
  - by rewrite <-!app_assoc.
  - rewrite length_app. simpl. lia.
Qed.

(** ** What the page holds after a run *)

(** X7.  On a page whose text holds both markers, the updater given one or
    more items whose concatenated text is encodable and holds neither marker
    writes a page that holds the container filled with the list of exactly
    these items, in order, holds the time, and holds neither marker any
    more. *)
Theorem update_fills_the_list now news_items st content html :
  files st !! INDEX_HTML = Some (File content) →
  universal_newlines content = html → encodable html = true →
  news_items ≠ [] →
  encodable (join news_items) = true →
  contains NEWS_MARKER (join news_items) = false →
  contains TIME_MARKER (join news_items) = false →
  contains NEWS_MARKER html = true →
  contains TIME_MARKER html = true →
  ∃ content',
    update_index_html now news_items st =
      (Returns (),
       mkState (<[INDEX_HTML := File content']> (files st))
               (console st ++ [MsgUpdated (length news_items) (strftime now)])) ∧
    contains (NEWS_OPEN ++ (UL_OPEN ++ join news_items ++ UL_CLOSE) ++ DIV_CLOSE) content'
      = true ∧
    contains (strftime now) content' = true ∧
    contains NEWS_MARKER content' = false ∧
    contains TIME_MARKER content' = false.
Proof.
  intros Hfile Hread Henc Hne Hitems HJn HJt Hn Ht.
  exists (substitute now news_items html).
  split.
  { rewrite (update_existing _ _ _ _ _ Hfile Hread), update_time_strftime; [done|].
    by apply substitute_encodable. }
  destruct (substitute_consumes now news_items html HJn) as [Fn Ft].
  split; [|by split; [apply substitute_stamps|]].
  pose proof (substitute_fills now news_items html Hn HJt) as H.
  by destruct (news_html_cases now news_items) as [[? _] | [_ <-]].
Qed.

Lemma update_fills_the_list_witness :
  ∃ content',
    update_index_html Samples.now0 [Samples.item_a; Samples.item_b]
      (Samples.page Samples.both_markers) =
      (Returns (),
       mkState (<[INDEX_HTML := File content']>
                  (files (Samples.page Samples.both_markers)))
               (console (Samples.page Samples.both_markers)
                  ++ [MsgUpdated 2 (strftime Samples.now0)])) ∧
    contains (NEWS_OPEN ++ (UL_OPEN ++ join [Samples.item_a; Samples.item_b] ++ UL_CLOSE)
                ++ DIV_CLOSE) content' = true ∧
    contains (strftime Samples.now0) content' = true ∧
    contains NEWS_MARKER content' = false ∧
    contains TIME_MARKER content' = false.
Proof.
  apply (update_fills_the_list Samples.now0 [Samples.item_a; Samples.item_b]
           (Samples.page Samples.both_markers) Samples.both_markers Samples.both_markers);
    reflexivity || discriminate.
Defined.

(** X8.  When fetching fails, the script still updates the page: on a page
    whose text holds both markers it prints the error line, writes the fallback message
    into the container and the time in place of the time marker, and ends
    normally. *)
Theorem failed_fetch_still_updates_the_page w e st content html :
  fetch_failure w e →
  files st !! INDEX_HTML = Some (File content) →
  universal_newlines content = html → encodable html = true →
  contains NEWS_MARKER html = true →
  contains TIME_MARKER html = true →
  ∃ content' l,
    main w st =
      (Returns (),
       mkState (<[INDEX_HTML := File content']> (files st))
               (console st ++ [MsgStart; l; MsgUpdated 0 (strftime (clock w)); MsgEnd])) ∧
    contains (NEWS_OPEN ++ UNAVAILABLE ++ DIV_CLOSE) content' = true ∧
    contains (strftime (clock w)) content' = true ∧
    contains NEWS_MARKER content' = false ∧
    contains TIME_MARKER content' = false.
Proof.
  intros Hfail Hfile Hread Henc Hn Ht.
  assert (fetch_body w 5 (mkState (files st) (console st ++ [MsgStart]))
          = (Raises e, mkState (files st) (console st ++ [MsgStart]))) as Hbody
    by (by apply fetch_body_raises).
  destruct (fetch_handles _ _ _ _ _ Hbody) as [l Hfetch]. simpl in Hfetch.
  exists (substitute (clock w) [] html), l.
  split.
  - unfold main, mbind, py_bind, print. simpl. rewrite Hfetch.
    rewrite (update_existing _ _ _ content html)
      by (done || by apply substitute_encodable). simpl.
    by rewrite <-!app_assoc.
  - destruct (substitute_consumes (clock w) [] html eq_refl) as [Fn Ft].
    split; [by apply (substitute_fills (clock w) [])|].
    split; [by apply substitute_stamps|]. done.
Qed.

Lemma failed_fetch_still_updates_the_page_witness :
  ∃ content' l,
    main Samples.timeout_world (Samples.page Samples.both_markers) =
      (Returns (),
       mkState (<[INDEX_HTML := File content']>
                  (files (Samples.page Samples.both_markers)))
               (console (Samples.page Samples.both_markers)
                  ++ [MsgStart; l; MsgUpdated 0 (strftime (clock Samples.timeout_world));
                      MsgEnd])) ∧
    contains (NEWS_OPEN ++ UNAVAILABLE ++ DIV_CLOSE) content' = true ∧
    contains (strftime (clock Samples.timeout_world)) content' = true ∧
    contains NEWS_MARKER content' = false ∧
    contains TIME_MARKER content' = false.
Proof.
  apply (failed_fetch_still_updates_the_page Samples.timeout_world Timeout
           (Samples.page Samples.both_markers) Samples.both_markers Samples.both_markers);
    [by apply request_raises | reflexivity..].
Defined.

(** ** Rendered items never spell out a marker *)

Lemma tag_free_no_news_marker d :
  (∀ i, tag_at (drop i d) = None) → contains NEWS_MARKER d = false.
Proof.
  intros H. apply not_true_is_false. intros (a & b & ->)%contains_spec.
  specialize (H (length a)). rewrite drop_app_length in H. by vm_compute in H.
Qed.

Lemma tag_free_no_time_marker d :
  (∀ i, tag_at (drop i d) = None) → contains TIME_MARKER d = false.
Proof.
  intros H. apply not_true_is_false. intros (a & b & ->)%contains_spec.
  specialize (H (length a)). rewrite drop_app_length in H. by vm_compute in H.
Qed.

Section RenderedFree.
Variable m' : list N.
Hypothesis inert_li_open : inert (LT :: m') LI_OPEN = true.
Hypothesis inert_href_close : inert (LT :: m') HREF_CLOSE = true.
Hypothesis inert_anchor_close : inert (LT :: m') ANCHOR_CLOSE = true.
Hypothesis inert_li_close : inert (LT :: m') LI_CLOSE = true.
Hypothesis guards_li_close : guards (LT :: m') LI_CLOSE = true.
Hypothesis tag_free_no_m :
  ∀ d, (∀ i, tag_at (drop i d) = None) → contains (LT :: m') d = false.

Lemma html_item_free link title desc T :
  LT ∉ link → LT ∉ title → (∀ i, tag_at (drop i desc) = None) →
  contains (LT :: m') T = false →
  contains (LT :: m') (html_item link title desc ++ T) = false.
Proof.
  intros Hl Ht Hd HT. unfold html_item. rewrite <-!app_assoc.
  apply inert_app; [done|]. apply free_app_no_head; [done|].
  apply inert_app; [done|]. apply free_app_no_head; [done|].
  apply inert_app; [done|].
  apply free_app_guarded; [by apply tag_free_no_m | done |].
  by apply inert_app.
Qed.

Lemma rendered_items_free items T :
  Forall plain items → contains (LT :: m') T = false →
  contains (LT :: m') (join (render_items items) ++ T) = false.
Proof.
  intros Hp HT. induction Hp as [|item items [Ht Hl] Hp IH]; [done|].
  simpl. destruct (valid item) eqn:Hv.
  - rewrite (render_item_parts _ Hv). unfold join. simpl. rewrite <-app_assoc.
    apply html_item_free; try done.
    intros i. apply strip_from_tag_free.
  - assert (render_item item = None) as ->; [|done].
    pose proof (render_item_valid item) as [H _].
    destruct (render_item item); [|done].
    rewrite H in Hv; [done | by eexists].
Qed.
End RenderedFree.

Lemma rendered_items_no_marker items :
  Forall plain items →
  contains NEWS_MARKER (join (render_items items)) = false ∧
  contains TIME_MARKER (join (render_items items)) = false.
Proof.
  intros Hp. split.
  - rewrite <-(app_nil_r (join _)).
    apply (rendered_items_free (tail NEWS_MARKER)); try done.
    apply tag_free_no_news_marker.
  - rewrite <-(app_nil_r (join _)).
    apply (rendered_items_free (tail TIME_MARKER)); try done.
    apply tag_free_no_time_marker.
Qed.

(** X9.  A whole run on a feed that is fetched and parsed, with a page whose
    text holds both markers: when the titles and links of the selected items
    hold no [<] and the rendered entries are encodable, the page written holds the container filled with the
    rendering of the selected items (the list of the entries, or the
    fallback message when none is rendered), holds the time, and holds
    neither marker; the descriptions may hold any markup, the markers
    included. *)
Theorem run_publishes_the_selected_items w st r root stored html :
  requests_get w RSS_URL 10%Z = inr r → raise_for_status w r = inr () →
  fromstring w (content r) = inr root →
  files st !! INDEX_HTML = Some (File stored) →
  universal_newlines stored = html → encodable html = true →
  contains NEWS_MARKER html = true →
  contains TIME_MARKER html = true →
  Forall plain (take 5 (findall_descendants ITEM root)) →
  let rendered := render_items (take 5 (findall_descendants ITEM root)) in
  encodable (join rendered) = true →
  ∃ content',
    main w st =
      (Returns (),
       mkState (<[INDEX_HTML := File content']> (files st))
               (console st ++
                  [MsgStart; MsgUpdated (length rendered) (strftime (clock w)); MsgEnd])) ∧
    contains (NEWS_OPEN ++ news_html (clock w) rendered ++ DIV_CLOSE) content' = true ∧
    contains (strftime (clock w)) content' = true ∧
    contains NEWS_MARKER content' = false ∧
    contains TIME_MARKER content' = false.
Proof.
  intros Hget Hst Hparse Hfile Hread Henc Hn Ht Hplain rendered Hitems.
  destruct (rendered_items_no_marker _ Hplain) as [HJn HJt]. fold rendered in HJn, HJt.
  exists (substitute (clock w) rendered html). split.
  - unfold main, mbind, py_bind, print. simpl.
    rewrite (fetch_success _ _ _ _ _ Hget Hst Hparse).
    change (slice_to 5 (findall_descendants ITEM root))
      with (take 5 (findall_descendants ITEM root)).
    fold rendered. rewrite (update_existing _ _ _ stored html)
      by (done || by apply substitute_encodable). simpl.
    by rewrite update_time_strftime, <-!app_assoc.
  - destruct (substitute_consumes (clock w) rendered html HJn) as [Fn Ft].
    split; [by apply substitute_fills|].
    split; [by apply substitute_stamps|]. done.
Qed.

Lemma run_publishes_the_selected_items_witness :
  let w := Samples.feed_world (Samples.feed_of [Samples.marker_item; Samples.no_title_item]) in
  let rendered := render_items [Samples.marker_item; Samples.no_title_item] in
  ∃ content',
    main w (Samples.page Samples.both_markers) =
      (Returns (),
       mkState (<[INDEX_HTML := File content']> (files (Samples.page Samples.both_markers)))
               (console (Samples.page Samples.both_markers) ++
                  [MsgStart; MsgUpdated (length rendered) (strftime (clock w)); MsgEnd])) ∧
    contains (NEWS_OPEN ++ news_html (clock w) rendered ++ DIV_CLOSE) content' = true ∧
    contains (strftime (clock w)) content' = true ∧
    contains NEWS_MARKER content' = false ∧
    contains TIME_MARKER content' = false.
Proof.
  apply (run_publishes_the_selected_items
           (Samples.feed_world (Samples.feed_of [Samples.marker_item; Samples.no_title_item]))
           (Samples.page Samples.both_markers) (mkResponse 200 [])
           (Samples.feed_of [Samples.marker_item; Samples.no_title_item])
           Samples.both_markers Samples.both_markers); try reflexivity.
  change (Forall plain [Samples.marker_item; Samples.no_title_item]).
  repeat constructor.
  - change (LT ∉ [84]). intros H%list_elem_of_singleton. discriminate H.
  - change (LT ∉ [76]). intros H%list_elem_of_singleton. discriminate H.
  - change (LT ∉ NO_TITLE). unfold NO_TITLE. rewrite !not_elem_of_cons.
    repeat split; (discriminate || apply not_elem_of_nil).
  - change (LT ∉ [76]). intros H%list_elem_of_singleton. discriminate H.
Defined.

(** ** Further facts on the two functions *)

(** X10.  Whatever encodable text the items and the page hold, the page the
    updater writes holds no time marker: the second replacement runs over the inserted
    news too.  It holds no news marker either unless the items themselves
    spell one out. *)
Theorem written_page_has_no_time_marker now news_items st stored html :
  files st !! INDEX_HTML = Some (File stored) →
  universal_newlines stored = html →
  encodable html = true → encodable (join news_items) = true →
  ∃ html',
    (update_index_html now news_items st).2 =
      mkState (<[INDEX_HTML := File html']> (files st))
              (console st ++ [MsgUpdated (length news_items) (strftime now)]) ∧
    contains TIME_MARKER html' = false ∧
    (contains NEWS_MARKER (join news_items) = false →
       contains NEWS_MARKER html' = false).
Proof.
  intros Hfile Hread Henc Hitems. exists (substitute now news_items html).
  split.
  { rewrite (update_existing _ _ _ _ _ Hfile Hread), update_time_strftime; [done|].
    by apply substitute_encodable. }
  split; [apply time_step_free_time|].
  intros HJ. by apply substitute_consumes.
Qed.

Lemma written_page_has_no_time_marker_witness :
  ∃ html',
    (update_index_html Samples.now0 [TIME_MARKER]
       (Samples.page Samples.both_markers)).2 =
      mkState (<[INDEX_HTML := File html']> (files (Samples.page Samples.both_markers)))
              (console (Samples.page Samples.both_markers)
                 ++ [MsgUpdated (length [TIME_MARKER]) (strftime Samples.now0)]) ∧
    contains TIME_MARKER html' = false ∧
    (contains NEWS_MARKER (join [TIME_MARKER]) = false →
       contains NEWS_MARKER html' = false).
Proof.
  apply (written_page_has_no_time_marker Samples.now0 [TIME_MARKER]
           (Samples.page Samples.both_markers) Samples.both_markers Samples.both_markers);
    reflexivity.
Defined.

(** X11.  The fetcher always returns normally and never touches a file; it
    prints at most one line, and whenever it prints one the list it returns
    is empty. *)
Theorem fetch_always_returns w num_items st :
  ∃ items ls,
    fetch_bbc_news w num_items st =
      (Returns items, mkState (files st) (console st ++ ls)) ∧
    (length ls ≤ 1)%nat ∧
    (ls ≠ [] → items = []).
Proof.
  destruct (fetch_body w num_items st) as [[items|e] st'] eqn:E.
  - pose proof (fetch_body_state w num_items st) as Hst. rewrite E in Hst.
    simpl in Hst. subst st'.
    exists items, []. unfold fetch_bbc_news, try_except. rewrite E.
    destruct st. simpl. rewrite app_nil_r. split; [done|]. split; [lia | done].
  - destruct (fetch_handles _ _ _ _ _ E) as [l ->].
    exists [], [l]. split; [done|]. split; [simpl; lia | done].
Qed.

(** X12.  The line printed on a failure names its class, by the order of
    the handlers: an exception of [requests] (a time-out, a connection
    error, an HTTP error status) is reported as a request error, a parse
    error as an XML error, and anything else as an unknown error. *)
Theorem failure_line_names_the_class w e n st :
  fetch_failure w e →
  fetch_bbc_news w n st =
    (Returns [],
     mkState (files st)
       (console st ++
          [if is_RequestException e then MsgRequestError e
           else if is_ParseError e then MsgParseError e
           else MsgUnknownError e])).
Proof.
  intros Hfail.
  assert (fetch_body w n st = (Raises e, st)) as Hbody by (by apply fetch_body_raises).
  unfold fetch_bbc_news, try_except. rewrite Hbody. simpl.
  destruct (is_RequestException e); [done|]. by destruct (is_ParseError e).
Qed.

Lemma failure_line_names_the_class_witness :
  fetch_bbc_news Samples.server_error_world 5 Samples.st0 =
    (Returns [],
     mkState (files Samples.st0)
       (console Samples.st0 ++
          [if is_RequestException (HTTPError 500) then MsgRequestError (HTTPError 500)
           else if is_ParseError (HTTPError 500) then MsgParseError (HTTPError 500)
           else MsgUnknownError (HTTPError 500)])).
Proof.
  apply (failure_line_names_the_class Samples.server_error_world (HTTPError 500)
           5 Samples.st0).
  apply (status_raises _ (mkResponse 500 [])); reflexivity.
Defined.

(** X13.  On a page whose text holds neither marker, as is every page
    written by an earlier run with marker-free items, a run of the whole
    script inserts nothing, whatever it fetches: it rewrites [index.html]
    with the text it read (carriage returns read as line feeds) and reports
    an update.  When the page holds no carriage return, no file changes. *)
Theorem run_on_page_without_markers_changes_nothing w st stored html :
  files st !! INDEX_HTML = Some (File stored) →
  universal_newlines stored = html → encodable html = true →
  contains NEWS_MARKER html = false →
  contains TIME_MARKER html = false →
  ∃ lines,
    main w st =
      (Returns (),
       mkState (<[INDEX_HTML := File html]> (files st)) (console st ++ lines)) ∧
    last lines = Some MsgEnd ∧
    (∃ count, MsgUpdated count (strftime (clock w)) ∈ lines) ∧
    (CR ∉ stored → <[INDEX_HTML := File html]> (files st) = files st).
Proof.
  intros Hfile Hread Henc Hn Ht. unfold main, mbind, py_bind, print. simpl.
  destruct (fetch_prints_at_most_one_line w 5
              (mkState (files st) (console st ++ [MsgStart])))
    as (items & ls & -> & _). simpl.
  assert (substitute (clock w) items html = html) as Hfix
    by (by apply substitute_without_markers).
  rewrite (update_existing _ _ _ stored html) by (done || by rewrite Hfix). simpl.
  rewrite Hfix.
  exists ([MsgStart] ++ ls ++ [MsgUpdated (length items) (update_time (clock w) items)]
            ++ [MsgEnd]).
  split; [by rewrite <-!app_assoc|]. split; [|split].
  - by rewrite !app_assoc, last_snoc.
  - exists (length items). rewrite update_time_strftime. set_solver.
  - intros Hcr. apply insert_id. rewrite Hfile. f_equal. f_equal.
    rewrite <-Hread. symmetry. by apply universal_newlines_id.
Qed.

Lemma run_on_page_without_markers_changes_nothing_witness :
  ∃ lines,
    main (Samples.feed_world Samples.long_feed) (Samples.page (lit "<h1>News</h1>")) =
      (Returns (),
       mkState (<[INDEX_HTML := File (lit "<h1>News</h1>")]>
                  (files (Samples.page (lit "<h1>News</h1>"))))
               (console (Samples.page (lit "<h1>News</h1>")) ++ lines)) ∧
    last lines = Some MsgEnd ∧
    (∃ count,
       MsgUpdated count (strftime (clock (Samples.feed_world Samples.long_feed))) ∈ lines) ∧
    (CR ∉ lit "<h1>News</h1>" →
       <[INDEX_HTML := File (lit "<h1>News</h1>")]>
         (files (Samples.page (lit "<h1>News</h1>")))
       = files (Samples.page (lit "<h1>News</h1>"))).
Proof.
  apply (run_on_page_without_markers_changes_nothing
           (Samples.feed_world Samples.long_feed)
           (Samples.page (lit "<h1>News</h1>")) (lit "<h1>News</h1>") (lit "<h1>News</h1>"));
    reflexivity.
Defined.
